(** * Session lifecycle relay: a shallow embedding of the final server

    The development embeds the last draft of the relay server (the one with
    the durable stores): [startBot] with its three event subscriptions, the
    reconnect timer and the [POST /send] handler.  External collaborators
    (protocol client, record store, key-value store, push channel) are an
    environment that answers every call; the handlers are programs in a
    small state-and-exception monad over the process state and the stores.

    Conventions of the model:
    - a handler runs to its end before the next input is taken; interleaving
      at [await] points is not modelled;
    - time only passes between inputs, by [Elapse];
    - string slots hold a string, [null] or [undefined]; other JSON values in
      request bodies are outside the model;
    - strings are sequences of code units below 256. *)

From Stdlib Require Import ZArith Ascii.
From stdpp Require Import base strings gmap list.

Local Open Scope Z_scope.

(** ** JavaScript values as the handlers see them *)

(** String-valued slots that may be missing: header values, body fields,
    protocol-buffer string fields, environment variables. *)
Inductive jsval : Type :=
  | JUndefined
  | JNull
  | JStr (s : string).

#[global] Instance jsval_eq_dec : EqDecision jsval.
Proof. solve_decision. Defined.

(** [ToBoolean]: the empty string, [null] and [undefined] are falsy. *)
Definition truthy (v : jsval) : bool :=
  match v with
  | JStr s => negb (bool_decide (s = ""))
  | _ => false
  end.

(** [a || b] *)
Definition js_or (a b : jsval) : jsval := if truthy a then a else b.
Infix "|||" := js_or (at level 50, left associativity).

(** [a !== b] on these values *)
Definition strict_ne (a b : jsval) : bool := negb (bool_decide (a = b)).

(** [o?.f] where [o] may be null or undefined *)
Definition opt_chain {A} (o : option A) (f : A → jsval) : jsval :=
  match o with Some x => f x | None => JUndefined end.

Definition is_digit (c : ascii) : bool :=
  let n := Z.of_nat (nat_of_ascii c) in (48 <=? n) && (n <=? 57).

(** [s.replace(/\D/g, '')] *)
Fixpoint strip_non_digits (s : string) : string :=
  match s with
  | EmptyString => EmptyString
  | String c r => if is_digit c then String c (strip_non_digits r)
                  else strip_non_digits r
  end.

Fixpoint all_digits (s : string) : bool :=
  match s with
  | EmptyString => true
  | String c r => is_digit c && all_digits r
  end.

Definition str_len (s : string) : Z := Z.of_nat (String.length s).

(** [/^\d{6,20}$/.test(s)] *)
Definition phone_regex_test (s : string) : bool :=
  all_digits s && (6 <=? str_len s) && (str_len s <=? 20).

(** ** Events of the protocol client *)

Record QuotedMessage := { q_tenant_id : jsval }.
Record ContextInfo := { quotedMessage : option QuotedMessage }.
Record ExtendedTextMessage :=
  { text : jsval; contextInfo : option ContextInfo }.
Record ImageMessage := { caption : jsval }.
Record Message :=
  { conversation : jsval;
    extendedTextMessage : option ExtendedTextMessage;
    imageMessage : option ImageMessage }.
Record MessageKey :=
  { remoteJid : jsval;
    fromMe : option bool;
    key_id : jsval;
    participant : jsval;
    tenant_id : jsval }.
Record WAMessage :=
  { key : option MessageKey;
    message : option Message;
    messageTimestamp : option Z }.

(** [m] of [messages.upsert]; [m.messages] may be missing. *)
Record UpsertEvent := { messages : option (list WAMessage) }.

Inductive WAConnectionState := ConnConnecting | ConnOpen | ConnClose.

#[global] Instance WAConnectionState_eq_dec : EqDecision WAConnectionState.
Proof. solve_decision. Defined.

(** [update] of [connection.update]; [statusCode] stands for
    [lastDisconnect?.error?.output?.statusCode]. *)
Record ConnectionUpdate :=
  { connection : option WAConnectionState;
    statusCode : option Z;
    qr : jsval }.

Inductive sock_event :=
  | CredsUpdate
  | ConnectionUpdateEv (u : ConnectionUpdate)
  | MessagesUpsert (m : UpsertEvent).

(** ** Stores and channels *)

Inductive status := connected | reconnecting | logged_out.

#[global] Instance status_eq_dec : EqDecision status.
Proof. solve_decision. Defined.

Record session_row := { row_status : status; updated_at : Z }.

Record payload :=
  { p_tenant_id : jsval;
    p_chat_id : jsval;
    p_from : jsval;
    p_text : jsval;
    p_message_id : jsval;
    p_ts : option Z }.

Inductive direction := inbound | outbound.

Inductive row_payload :=
  | InboundPayload (p : payload)
  | OutboundPayload (to : string) (txt : jsval).

Record message_row :=
  { store_id : jsval;
    chat_id : jsval;
    row_direction : direction;
    row_body : row_payload }.

Inductive io_event :=
  | EvQr (code : jsval)
  | EvConnected
  | EvMsgReceived (from : jsval) (msg : jsval)
  | EvSessionLoggedOut.

Inductive exn :=
  | TypeError (m : string)
  | ReferenceError (m : string)
  | Rejected (m : string).

Inductive log_line :=
  | ConsoleLog (s : string)
  | ConsoleWarn (s : string)
  | ConsoleError (s : string) (e : exn).

(** The callback handed to [setTimeout]: the only one in the program is
    [() => startBot().catch(e => console.error('Reconnect failed', e))]. *)
Inductive callback := RestartBot.

(** ** External calls and the answering environment *)

(** Calls that either complete or throw (reject). *)
Inductive extcall :=
  | useMultiFileAuthState (dir : string)
  | fetchLatestBaileysVersion
  | makeWASocket
  | saveCreds
  | qrcode_generate (code : jsval)
  | io_emit (ev : io_event)
  | redis_set (k : string) (v : jsval) (ex : Z)
  | redis_del (k : string)
  | redis_xadd (stream : string) (p : payload)
  | sock_sendMessage (jid : string) (txt : jsval).

(** Calls on the record store: besides throwing, the awaited builder can
    resolve to a response that carries an [error] field (the status endpoint
    destructures [{ data, error }]); the handlers below never read it. *)
Inductive sbcall :=
  | upsert_session (id : string) (st : status)
  | insert_message (r : message_row).

Inductive answer := Done | Throws (e : string).
Inductive sb_answer := SbDone | SbError (e : string) | SbThrows (e : string).

Record env := { ext : extcall → answer; sb : sbcall → sb_answer }.

Inductive issued := IExt (c : extcall) | ISb (c : sbcall).

(** ** Process state together with the state of the collaborators *)

Record world :=
  { now : Z;                               (* clock, milliseconds *)
    sock : option nat;                     (* let sock = null *)
    latestQr : jsval;                      (* let latestQr = null *)
    savedState : option string;            (* let savedState = null *)
    sockets : nat;                         (* clients built so far *)
    timers : list (Z * callback);          (* pending timeouts, with due time *)
    wa_sessions : gmap string session_row; (* status table, key store_id *)
    wa_messages : list message_row;        (* audit table *)
    redis_kv : gmap string (jsval * Z);    (* key -> value, expiry instant *)
    wa_inbound : list payload;             (* stream wa.inbound *)
    io_out : list io_event;                (* pushed notifications *)
    console : list log_line;
    calls : list issued }.                 (* every external call issued *)

Definition initial_world : world :=
  {| now := 0; sock := None; latestQr := JNull; savedState := None;
     sockets := 0; timers := []; wa_sessions := ∅; wa_messages := [];
     redis_kv := ∅; wa_inbound := []; io_out := []; console := [];
     calls := [] |}.

Definition set_now (t : Z) (w : world) : world :=
  {| now := t; sock := sock w; latestQr := latestQr w;
     savedState := savedState w; sockets := sockets w; timers := timers w;
     wa_sessions := wa_sessions w; wa_messages := wa_messages w;
     redis_kv := redis_kv w; wa_inbound := wa_inbound w; io_out := io_out w;
     console := console w; calls := calls w |}.

Definition set_sock (s : option nat) (w : world) : world :=
  {| now := now w; sock := s; latestQr := latestQr w;
     savedState := savedState w; sockets := sockets w; timers := timers w;
     wa_sessions := wa_sessions w; wa_messages := wa_messages w;
     redis_kv := redis_kv w; wa_inbound := wa_inbound w; io_out := io_out w;
     console := console w; calls := calls w |}.

Definition set_latestQr (q : jsval) (w : world) : world :=
  {| now := now w; sock := sock w; latestQr := q;
     savedState := savedState w; sockets := sockets w; timers := timers w;
     wa_sessions := wa_sessions w; wa_messages := wa_messages w;
     redis_kv := redis_kv w; wa_inbound := wa_inbound w; io_out := io_out w;
     console := console w; calls := calls w |}.

Definition set_savedState (s : option string) (w : world) : world :=
  {| now := now w; sock := sock w; latestQr := latestQr w;
     savedState := s; sockets := sockets w; timers := timers w;
     wa_sessions := wa_sessions w; wa_messages := wa_messages w;
     redis_kv := redis_kv w; wa_inbound := wa_inbound w; io_out := io_out w;
     console := console w; calls := calls w |}.

Definition set_sockets (n : nat) (w : world) : world :=
  {| now := now w; sock := sock w; latestQr := latestQr w;
     savedState := savedState w; sockets := n; timers := timers w;
     wa_sessions := wa_sessions w; wa_messages := wa_messages w;
     redis_kv := redis_kv w; wa_inbound := wa_inbound w; io_out := io_out w;
     console := console w; calls := calls w |}.

Definition set_timers (t : list (Z * callback)) (w : world) : world :=
  {| now := now w; sock := sock w; latestQr := latestQr w;
     savedState := savedState w; sockets := sockets w; timers := t;
     wa_sessions := wa_sessions w; wa_messages := wa_messages w;
     redis_kv := redis_kv w; wa_inbound := wa_inbound w; io_out := io_out w;
     console := console w; calls := calls w |}.

Definition set_wa_sessions (m : gmap string session_row) (w : world) : world :=
  {| now := now w; sock := sock w; latestQr := latestQr w;
     savedState := savedState w; sockets := sockets w; timers := timers w;
     wa_sessions := m; wa_messages := wa_messages w;
     redis_kv := redis_kv w; wa_inbound := wa_inbound w; io_out := io_out w;
     console := console w; calls := calls w |}.

Definition set_wa_messages (l : list message_row) (w : world) : world :=
  {| now := now w; sock := sock w; latestQr := latestQr w;
     savedState := savedState w; sockets := sockets w; timers := timers w;
     wa_sessions := wa_sessions w; wa_messages := l;
     redis_kv := redis_kv w; wa_inbound := wa_inbound w; io_out := io_out w;
     console := console w; calls := calls w |}.

Definition set_redis_kv (m : gmap string (jsval * Z)) (w : world) : world :=
  {| now := now w; sock := sock w; latestQr := latestQr w;
     savedState := savedState w; sockets := sockets w; timers := timers w;
     wa_sessions := wa_sessions w; wa_messages := wa_messages w;
     redis_kv := m; wa_inbound := wa_inbound w; io_out := io_out w;
     console := console w; calls := calls w |}.

Definition set_wa_inbound (l : list payload) (w : world) : world :=
  {| now := now w; sock := sock w; latestQr := latestQr w;
     savedState := savedState w; sockets := sockets w; timers := timers w;
     wa_sessions := wa_sessions w; wa_messages := wa_messages w;
     redis_kv := redis_kv w; wa_inbound := l; io_out := io_out w;
     console := console w; calls := calls w |}.

Definition set_io_out (l : list io_event) (w : world) : world :=
  {| now := now w; sock := sock w; latestQr := latestQr w;
     savedState := savedState w; sockets := sockets w; timers := timers w;
     wa_sessions := wa_sessions w; wa_messages := wa_messages w;
     redis_kv := redis_kv w; wa_inbound := wa_inbound w; io_out := l;
     console := console w; calls := calls w |}.

Definition set_console (l : list log_line) (w : world) : world :=
  {| now := now w; sock := sock w; latestQr := latestQr w;
     savedState := savedState w; sockets := sockets w; timers := timers w;
     wa_sessions := wa_sessions w; wa_messages := wa_messages w;
     redis_kv := redis_kv w; wa_inbound := wa_inbound w; io_out := io_out w;
     console := l; calls := calls w |}.

Definition set_calls (l : list issued) (w : world) : world :=
  {| now := now w; sock := sock w; latestQr := latestQr w;
     savedState := savedState w; sockets := sockets w; timers := timers w;
     wa_sessions := wa_sessions w; wa_messages := wa_messages w;
     redis_kv := redis_kv w; wa_inbound := wa_inbound w; io_out := io_out w;
     console := console w; calls := l |}.

(** ** The handler monad: state over [world], with thrown exceptions *)

Definition Js (A : Type) : Type := world → world * (exn + A).

#[global] Instance js_ret : MRet Js := λ A a w, (w, inr a).

#[global] Instance js_bind : MBind Js := λ A B f m w,
  match m w with
  | (w', inr a) => f a w'
  | (w', inl e) => (w', inl e)
  end.

Definition throw {A} (e : exn) : Js A := λ w, (w, inl e).

(** [try { m } catch (e) { h e }] *)
Definition try_catch {A} (m : Js A) (h : exn → Js A) : Js A := λ w,
  match m w with
  | (w', inl e) => h e w'
  | r => r
  end.

Definition modify (f : world → world) : Js unit := λ w, (f w, inr tt).
Definition gets {A} (f : world → A) : Js A := λ w, (w, inr (f w)).
Definition when (b : bool) (m : Js unit) : Js unit := if b then m else mret tt.

Definition log (l : log_line) : Js unit :=
  modify (λ w, set_console (console w ++ [l]) w).

(** [setTimeout(cb, delay)] *)
Definition setTimeout (cb : callback) (delay : Z) : Js unit :=
  modify (λ w, set_timers (timers w ++ [(now w + delay, cb)]) w).

(** What a completed call does to the collaborators. *)
Definition perform (c : extcall) (w : world) : world :=
  match c with
  | makeWASocket => set_sockets (S (sockets w)) w
  | io_emit ev => set_io_out (io_out w ++ [ev]) w
  | redis_set k v ex =>
      set_redis_kv (<[k := (v, now w + ex * 1000)]> (redis_kv w)) w
  | redis_del k => set_redis_kv (delete k (redis_kv w)) w
  | redis_xadd _ p => set_wa_inbound (wa_inbound w ++ [p]) w
  | useMultiFileAuthState _ | fetchLatestBaileysVersion | saveCreds
  | qrcode_generate _ | sock_sendMessage _ _ => w
  end.

Definition sb_perform (c : sbcall) (w : world) : world :=
  match c with
  | upsert_session id st =>
      set_wa_sessions
        (<[id := {| row_status := st; updated_at := now w |}]> (wa_sessions w)) w
  | insert_message r => set_wa_messages (wa_messages w ++ [r]) w
  end.

Definition record_call (i : issued) (w : world) : world :=
  set_calls (calls w ++ [i]) w.

(** [await c]: the environment decides whether the call completes. *)
Definition call (E : env) (c : extcall) : Js unit := λ w,
  let w1 := record_call (IExt c) w in
  match ext E c with
  | Done => (perform c w1, inr tt)
  | Throws e => (w1, inl (Rejected e))
  end.

Definition sb_call (E : env) (c : sbcall) : Js unit := λ w,
  let w1 := record_call (ISb c) w in
  match sb E c with
  | SbDone => (sb_perform c w1, inr tt)
  | SbError _ => (w1, inr tt)
  | SbThrows e => (w1, inl (Rejected e))
  end.

(** ** Configuration (lines 66-72 of the server) *)

Record process_env :=
  { env_API_KEY : jsval;
    env_AUTH_DIR : jsval;
    env_TENANT_ID : jsval;
    env_WHATSAPP_SESSION_ID : jsval }.

(** The module-level constants the handlers close over; [loggedOut] is the
    client library's [DisconnectReason.loggedOut]. *)
Record config :=
  { AUTH_DIR : string;
    TENANT_ID : string;
    SESSION_ID : string;
    API_KEY : jsval;
    loggedOut : Z }.

(** [v || d] for a string default *)
Definition or_default (v : jsval) (d : string) : string :=
  match v with
  | JStr s => if bool_decide (s = "") then d else s
  | _ => d
  end.

Definition load_config (p : process_env) (logged_out_code : Z) : config :=
  let tenant :=
    or_default (env_TENANT_ID p)
      (or_default (env_WHATSAPP_SESSION_ID p) "dev_tenant") in
  {| AUTH_DIR := or_default (env_AUTH_DIR p) "auth_info_baileys";
     TENANT_ID := tenant;
     SESSION_ID := or_default (env_WHATSAPP_SESSION_ID p) tenant;
     API_KEY := env_API_KEY p;
     loggedOut := logged_out_code |}.

(** ** The server *)

Section Server.

Variable C : config.

Definition qr_key : string := "wa:qr:" +:+ SESSION_ID C.

Definition startBot (E : env) : Js unit :=
  try_catch
    (call E (useMultiFileAuthState (AUTH_DIR C));;
     modify (set_savedState (Some (AUTH_DIR C)));;
     call E fetchLatestBaileysVersion;;
     n ← gets sockets;
     call E makeWASocket;;
     modify (set_sock (Some n)))
    (λ err, log (ConsoleError "startBot error:" err);; throw err).

(** [creds.update]: the row literal mentions [STORE_ID], which is declared
    nowhere, so evaluating it throws after [saveCreds] has run. *)
Definition on_creds_update (E : env) : Js unit :=
  try_catch
    (call E saveCreds;;
     throw (ReferenceError "STORE_ID is not defined"))
    (λ e, log (ConsoleError "Error saving creds to Supabase:" e)).

Definition shouldReconnect (u : ConnectionUpdate) : bool :=
  negb (bool_decide (statusCode u = Some (loggedOut C))).

Definition on_connection_update (E : env) (u : ConnectionUpdate) : Js unit :=
  try_catch
    (when (truthy (qr u))
       (modify (set_latestQr (qr u));;
        call E (io_emit (EvQr (qr u)));;
        call E (qrcode_generate (qr u));;
        call E (redis_set qr_key (qr u) 300));;
     when (bool_decide (connection u = Some ConnOpen))
       (log (ConsoleLog "WhatsApp connected");;
        call E (io_emit EvConnected);;
        sb_call E (upsert_session (TENANT_ID C) connected);;
        q ← gets latestQr;
        when (truthy q) (call E (io_emit (EvQr q))));;
     when (bool_decide (connection u = Some ConnClose))
       (log (ConsoleLog (if shouldReconnect u
                         then "Connection closed. Reconnecting..."
                         else "Connection closed. Logged out."));;
        sb_call E (upsert_session (TENANT_ID C)
                     (if shouldReconnect u then reconnecting else logged_out));;
        if shouldReconnect u
        then setTimeout RestartBot 5000
        else (call E (redis_del qr_key);;
              call E (io_emit EvSessionLoggedOut))))
    (λ e, log (ConsoleError "Error in connection.update handler" e)).

(** [m.messages && m.messages[0]] *)
Definition first_message (m : UpsertEvent) : option WAMessage :=
  match messages m with
  | Some l => head l
  | None => None
  end.

(** [message.message?.conversation] and its two siblings *)
Definition plain_text (msg : WAMessage) : jsval :=
  opt_chain (message msg) conversation.
Definition extended_text (msg : WAMessage) : jsval :=
  opt_chain (message msg) (λ c, opt_chain (extendedTextMessage c) text).
Definition image_caption (msg : WAMessage) : jsval :=
  opt_chain (message msg) (λ c, opt_chain (imageMessage c) caption).

Definition text_of (msg : WAMessage) : jsval :=
  plain_text msg ||| extended_text msg ||| image_caption msg ||| JNull.

(** [message.key?.fromMe] as a condition *)
Definition from_me (msg : WAMessage) : bool :=
  match key msg with
  | Some k => bool_decide (fromMe k = Some true)
  | None => false
  end.

(** [message?.message?.extendedTextMessage?.contextInfo?.quotedMessage?.tenant_id] *)
Definition quoted_tenant_id (msg : WAMessage) : jsval :=
  opt_chain (message msg) (λ c,
    opt_chain (extendedTextMessage c) (λ e,
      opt_chain (contextInfo e) (λ ci,
        opt_chain (quotedMessage ci) q_tenant_id))).

(** [message?.key?.tenant_id] *)
Definition injected_tenant_id (msg : WAMessage) : jsval :=
  opt_chain (key msg) tenant_id.

Definition tenant_of (msg : WAMessage) : jsval :=
  quoted_tenant_id msg ||| injected_tenant_id msg ||| JStr (SESSION_ID C).

Definition payload_of (msg : WAMessage) (k : MessageKey) (tenantId : jsval)
    : payload :=
  {| p_tenant_id := tenantId;
     p_chat_id := remoteJid k;
     p_from := participant k ||| remoteJid k;
     p_text := text_of msg;
     p_message_id := key_id k;
     p_ts := messageTimestamp msg |}.

(** The two [store_id] entries of the literal: the later one wins. *)
Definition inbound_row (p : payload) : message_row :=
  {| store_id := p_tenant_id p;
     chat_id := p_chat_id p;
     row_direction := inbound;
     row_body := InboundPayload p |}.

Definition no_tenant_warning : log_line :=
  ConsoleWarn "No tenant_id found in inbound message, skipping.".

Definition on_messages_upsert (E : env) (m : UpsertEvent) : Js unit :=
  try_catch
    (match first_message m with
     | None => mret tt
     | Some msg =>
         if from_me msg then mret tt
         else
           let tenantId := tenant_of msg in
           if negb (truthy tenantId)
           then log no_tenant_warning
           else
             match key msg with
             | None =>
                 throw (TypeError "Cannot read properties of undefined (reading 'remoteJid')")
             | Some k =>
                 let p := payload_of msg k tenantId in
                 call E (redis_xadd "wa.inbound" p);;
                 sb_call E (insert_message (inbound_row p));;
                 call E (io_emit (EvMsgReceived (p_chat_id p) (p_text p)))
             end
     end)
    (λ e, log (ConsoleError "Error handling messages.upsert" e)).

(** *** [POST /send] *)

Record send_request :=
  { x_api_key : jsval; body_to : jsval; body_message : jsval }.

Inductive response_body := BodyError (msg : string) | BodySent.
Record response := { code : Z; body : response_body }.

#[global] Instance response_body_eq_dec : EqDecision response_body.
Proof. solve_decision. Defined.

(** [String(v)] *)
Definition to_String (v : jsval) : string :=
  match v with
  | JStr s => s
  | JNull => "null"
  | JUndefined => "undefined"
  end.

(** [v.length > n] for a truthy [v] *)
Definition length_gt (v : jsval) (n : Z) : bool :=
  match v with
  | JStr s => n <? str_len s
  | _ => false
  end.

(** [String(err?.message || err)] *)
Definition exn_string (e : exn) : string :=
  match e with
  | TypeError m => if bool_decide (m = "") then "TypeError" else m
  | ReferenceError m => if bool_decide (m = "") then "ReferenceError" else m
  | Rejected m => if bool_decide (m = "") then "Error" else m
  end.

Definition jid_of (digits : string) : string := digits +:+ "@s.whatsapp.net".

Definition outbound_row (jid : string) (txt : jsval) : message_row :=
  {| store_id := JStr (TENANT_ID C);
     chat_id := JStr jid;
     row_direction := outbound;
     row_body := OutboundPayload jid txt |}.

Definition reply (c : Z) (b : response_body) : Js response :=
  mret {| code := c; body := b |}.

Definition post_send (E : env) (req : send_request) : Js response :=
  try_catch
    (let apiKey := x_api_key req in
     if negb (truthy apiKey) || strict_ne apiKey (API_KEY C)
     then reply 401 (BodyError "Unauthorized")
     else
       let to := body_to req in
       let msg := body_message req in
       if negb (truthy to) || negb (truthy msg) || length_gt msg 1000
       then reply 400
              (BodyError "Missing to, message, or message exceeds 1000 characters")
       else
         let digits := strip_non_digits (to_String to) in
         if negb (phone_regex_test digits)
         then reply 400 (BodyError "Invalid phone format")
         else
           let jid := jid_of digits in
           s ← gets sock;
           match s with
           | None => reply 500 (BodyError "WhatsApp not connected")
           | Some _ =>
               call E (sock_sendMessage jid msg);;
               sb_call E (insert_message (outbound_row jid msg));;
               reply 200 BodySent
           end)
    (λ err, log (ConsoleError "/send error" err);;
            reply 500 (BodyError (exn_string err))).

(** *** The event loop *)

Definition run_callback (E : env) (cb : callback) : Js unit :=
  match cb with
  | RestartBot =>
      try_catch (startBot E) (λ e, log (ConsoleError "Reconnect failed" e))
  end.

Fixpoint run_callbacks (E : env) (l : list callback) : Js unit :=
  match l with
  | [] => mret tt
  | cb :: r => run_callback E cb;; run_callbacks E r
  end.

Definition is_due (t : Z) (x : Z * callback) : bool := x.1 <=? t.

(** Time passes; every timeout that has come due runs, oldest first. *)
Definition elapse (E : env) (dt : N) : Js unit :=
  modify (λ w, set_now (now w + Z.of_N dt) w);;
  t ← gets now;
  ts ← gets timers;
  modify (set_timers (List.filter (λ x, negb (is_due t x)) ts));;
  run_callbacks E (List.map snd (List.filter (is_due t) ts)).

Definition dispatch (E : env) (ev : sock_event) : Js unit :=
  match ev with
  | CredsUpdate => on_creds_update E
  | ConnectionUpdateEv u => on_connection_update E u
  | MessagesUpsert m => on_messages_upsert E m
  end.

Inductive input :=
  | Boot                                   (* the top-level startBot() *)
  | SockEvent (s : nat) (ev : sock_event)  (* client number s emits ev *)
  | HttpSend (req : send_request)
  | Elapse (dt : N).

Definition step (E : env) (i : input) : Js (option response) :=
  match i with
  | Boot =>
      try_catch (startBot E)
        (λ e, log (ConsoleError "Unexpected error on start:" e));;
      mret None
  | SockEvent s ev =>
      n ← gets sockets;
      (if bool_decide (s < n)%nat then dispatch E ev else mret tt);;
      mret None
  | HttpSend req => r ← post_send E req; mret (Some r)
  | Elapse dt => elapse E dt;; mret None
  end.

(** A run: each input comes with the environment's answers during it. *)
Fixpoint run (tr : list (env * input)) (w : world) : world :=
  match tr with
  | [] => w
  | (E, i) :: r => run r (step E i w).1
  end.

End Server.

Arguments startBot C E w : simpl never.

(** ** The earlier drafts

    Two earlier drafts of the server ship next to the final one.  They keep
    no stores; their [messages.upsert] handler, the same in both, pushes
    plain text bodies to the channel and is not wrapped in a [try], so a
    missing batch, message or key rejects the handler's promise. *)

Definition draft_on_messages_upsert (E : env) (msg : UpsertEvent) : Js unit :=
  match messages msg with
  | None =>
      throw (TypeError "Cannot read properties of undefined (reading '0')")
  | Some l =>
      match head l with
      | None =>
          throw (TypeError "Cannot read properties of undefined (reading 'key')")
      | Some m =>
          match key m with
          | None =>
              throw (TypeError
                       "Cannot read properties of undefined (reading 'fromMe')")
          | Some k =>
              if negb (bool_decide (fromMe k = Some true))
                 && truthy (plain_text m)
              then call E (io_emit (EvMsgReceived (remoteJid k) (plain_text m)))
              else mret tt
          end
      end
  end.

(** ** Vocabulary of the statements *)

Section Vocabulary.

Variable C : config.

(** The rule as the specification words it: the first populated field of
    the list, and null when none is populated.  Populated means a non-empty
    string, which is what the handler's [||] chain tests. *)
Fixpoint spec_display_text (fields : list jsval) : jsval :=
  match fields with
  | [] => JNull
  | v :: r => if truthy v then v else spec_display_text r
  end.

Definition sb_returns (a : sb_answer) : bool :=
  match a with SbThrows _ => false | _ => true end.

Definition sb_applied (a : sb_answer) : bool :=
  match a with SbDone => true | _ => false end.

Definition upsert_failure (e : string) : log_line :=
  ConsoleError "Error handling messages.upsert" (Rejected e).

Definition unauthorized : response :=
  {| code := 401; body := BodyError "Unauthorized" |}.

Definition sent : response := {| code := 200; body := BodySent |}.

(** The three guards of [/send] that precede the client-handle check, all
    passing. *)
Definition send_guards_pass (req : send_request) : bool :=
  negb (negb (truthy (x_api_key req)) || strict_ne (x_api_key req) (API_KEY C))
  && negb (negb (truthy (body_to req)) || negb (truthy (body_message req))
           || length_gt (body_message req) 1000)
  && phone_regex_test (strip_non_digits (to_String (body_to req))).

Definition send_jid (req : send_request) : string :=
  jid_of (strip_non_digits (to_String (body_to req))).

Definition send_call (req : send_request) : extcall :=
  sock_sendMessage (send_jid req) (body_message req).

Definition audit_call (req : send_request) : sbcall :=
  insert_message (outbound_row C (send_jid req) (body_message req)).

Definition completes (E : env) : Prop := ∀ c, ext E c = Done.

Definition close_with (code : option Z) : ConnectionUpdate :=
  {| connection := Some ConnClose; statusCode := code; qr := JUndefined |}.

Definition started (w : world) : world :=
  set_sock (Some (sockets w))
    (perform makeWASocket
       (record_call (IExt makeWASocket)
          (record_call (IExt fetchLatestBaileysVersion)
             (set_savedState (Some (AUTH_DIR C))
                (record_call (IExt (useMultiFileAuthState (AUTH_DIR C))) w))))).

Definition reconnect_upsert : sbcall :=
  upsert_session (TENANT_ID C) reconnecting.

Definition logout_upsert : sbcall := upsert_session (TENANT_ID C) logged_out.

Definition logged_out_row (w : world) : session_row :=
  {| row_status := logged_out; updated_at := now w |}.

Definition reconnecting_row (w : world) : session_row :=
  {| row_status := reconnecting; updated_at := now w |}.

End Vocabulary.

(** ** Concrete configuration, environments, events and requests *)

Definition demo_config : config :=
  load_config
    {| env_API_KEY := JStr "s3cret"; env_AUTH_DIR := JUndefined;
       env_TENANT_ID := JUndefined; env_WHATSAPP_SESSION_ID := JUndefined |}
    401.

Definition all_done : env :=
  {| ext := λ _, Done; sb := λ _, SbDone |}.

(** The process after a successful start: one client, handle set. *)
Definition booted : world := run demo_config [(all_done, Boot)] initial_world.

Definition peer_key : MessageKey :=
  {| remoteJid := JStr "2348012345678@s.whatsapp.net"; fromMe := Some false;
     key_id := JStr "3EB0A1"; participant := JUndefined;
     tenant_id := JUndefined |}.

Definition self_key : MessageKey :=
  {| remoteJid := JStr "2348012345678@s.whatsapp.net"; fromMe := Some true;
     key_id := JStr "3EB0A2"; participant := JUndefined;
     tenant_id := JUndefined |}.

Definition plain (k : MessageKey) (body : jsval) : WAMessage :=
  {| key := Some k;
     message := Some {| conversation := body; extendedTextMessage := None;
                        imageMessage := None |};
     messageTimestamp := Some 1700000000 |}.

Definition hello_msg : WAMessage := plain peer_key (JStr "hello").

Definition self_msg : WAMessage := plain self_key (JStr "note to self").

(** A sticker-like message: a key, but none of the three text fields. *)
Definition textless_msg : WAMessage :=
  {| key := Some peer_key; message := None; messageTimestamp := Some 1700000001 |}.

(** The stream append throws while the audit store and the push channel
    would have taken their writes. *)
Definition stream_down : env :=
  {| ext := λ c, match c with
                 | redis_xadd _ _ => Throws "stream unavailable"
                 | _ => Done
                 end;
     sb := λ _, SbDone |}.

Definition stream_down_outcome : world * (exn + unit) :=
  on_messages_upsert demo_config stream_down {| messages := Some [hello_msg] |}
    booted.

Definition good_request : send_request :=
  {| x_api_key := JStr "s3cret"; body_to := JStr "+234 (801) 234-5678";
     body_message := JStr "Hello" |}.

Definition keyless_request : send_request :=
  {| x_api_key := JUndefined; body_to := JStr "+234 (801) 234-5678";
     body_message := JStr "Hello" |}.

Definition wrong_key_request : send_request :=
  {| x_api_key := JStr "guess"; body_to := JStr "+234 (801) 234-5678";
     body_message := JStr "Hello" |}.

(** The audit store resolves the insert with an error result. *)
Definition audit_refused : env :=
  {| ext := λ _, Done;
     sb := λ c, match c with
                | insert_message _ => SbError "row rejected"
                | _ => SbDone
                end |}.

(** A close for a lost connection (any code but the logout one), and the
    close that reports the logout. *)
Definition connection_lost : ConnectionUpdate := close_with (Some 428).

Definition logged_out_close : ConnectionUpdate := close_with (Some 401).

(** A logout that arrives one second into the reconnect delay. *)
Definition interim_logout : list (env * input) :=
  [(all_done, Boot);
   (all_done, SockEvent 0 (ConnectionUpdateEv connection_lost));
   (all_done, Elapse 1000);
   (all_done, SockEvent 0 (ConnectionUpdateEv logged_out_close))].

Definition at_logout : world := run demo_config interim_logout initial_world.

Definition after_delay : world :=
  run demo_config [(all_done, Elapse 4000)] at_logout.

(** ** The rest of the final server *)

(** *** Origin check shared by the HTTP and the push-channel CORS options *)

Definition allowed : list string :=
  ["http://localhost:5173";
   "https://vendora-whats.lovable.app/";
   "https://preview--vendora-whats.lovable.app/"].

Inductive cors_verdict := CorsAllow | CorsDeny (err : string).

(** [allowed.includes(origin)] *)
Definition allowed_includes (origin : jsval) : bool :=
  match origin with
  | JStr s => bool_decide (s ∈ allowed)
  | _ => false
  end.

(** [origin: (origin, cb) => ...] *)
Definition cors_origin (origin : jsval) : cors_verdict :=
  if negb (truthy origin) then CorsAllow
  else if allowed_includes origin then CorsAllow
  else CorsDeny "CORS not allowed".

(** *** Mandatory configuration (lines 66-81) *)

Record store_env :=
  { env_SUPABASE_URL : jsval;
    env_SUPABASE_SERVICE_ROLE_KEY : jsval;
    env_UPSTASH_REST_URL : jsval;
    env_UPSTASH_REDIS_TOKEN : jsval }.

Inductive startup := ProcessExit (code : Z) (msg : string) | Proceed.

Definition check_config (p : store_env) : startup :=
  if negb (truthy (env_SUPABASE_URL p))
     || negb (truthy (env_SUPABASE_SERVICE_ROLE_KEY p))
  then ProcessExit 1
         "Missing Supabase config. Set SUPABASE_URL and SUPABASE_SERVICE_ROLE_KEY."
  else if negb (truthy (env_UPSTASH_REST_URL p))
          || negb (truthy (env_UPSTASH_REDIS_TOKEN p))
  then ProcessExit 1
         "Missing Upstash config. Set UPSTASH_REST_URL and UPSTASH_REDIS_TOKEN."
  else Proceed.

(** *** Reads of the stores *)

(** The answers of the two read calls; a completed read returns what the
    store holds.  [phone_of] is the [phone] column, which this server never
    writes. *)
Record read_env :=
  { redis_get : string → answer;
    select_single : string → sb_answer;
    phone_of : string → jsval }.

(** What a completed [redis.get] yields: the value while it has not expired,
    null otherwise. *)
Definition redis_value (w : world) (k : string) : jsval :=
  match redis_kv w !! k with
  | Some (v, expiry) => if now w <? expiry then v else JNull
  | None => JNull
  end.

Definition await_redis_get (R : read_env) (k : string) : Js jsval := λ w,
  match redis_get R k with
  | Done => (w, inr (redis_value w k))
  | Throws e => (w, inl (Rejected e))
  end.

(** [{ data, error }] of the awaited [select ... single()]: the row with its
    phone column, and the code of the error.  A completed select of a
    missing row is taken to resolve with the no-rows code the handler
    singles out. *)
Definition select_result : Type := option (session_row * jsval) * option string.

Definition await_select (R : read_env) (id : string) : Js select_result := λ w,
  match select_single R id with
  | SbDone =>
      match wa_sessions w !! id with
      | Some r => (w, inr (Some (r, phone_of R id), None))
      | None => (w, inr (None, Some "PGRST116"))
      end
  | SbError code => (w, inr (None, Some code))
  | SbThrows e => (w, inl (Rejected e))
  end.

Inductive get_body :=
  | QrBody (code : jsval)
  | StatusBody (st : status) (updated : Z) (phone : jsval)
  | StatusUnknown
  | HealthBody (ok wa_connected : bool)
  | GetError (msg : string).

Record get_response := { get_code : Z; get_body_of : get_body }.

Definition get_reply (c : Z) (b : get_body) : Js get_response :=
  mret {| get_code := c; get_body_of := b |}.

Section Endpoints.

Variable C : config.

(** [GET /session/:id/qr] *)
Definition get_qr (R : read_env) (id_param : jsval) : Js get_response :=
  try_catch
    (let id := or_default id_param (SESSION_ID C) in
     code ← await_redis_get R ("wa:qr:" +:+ id);
     if negb (truthy code)
     then get_reply 404 (GetError "QR not found or expired")
     else get_reply 200 (QrBody code))
    (λ e, log (ConsoleError "GET /session/:id/qr" e);;
          get_reply 500 (GetError "Server error")).

(** [error && error.code !== 'PGRST116'] *)
Definition reportable (error : option string) : bool :=
  match error with
  | Some code => negb (bool_decide (code = "PGRST116"))
  | None => false
  end.

(** [GET /session/:id/status]; the logged value is the error's code. *)
Definition get_status (R : read_env) (id_param : jsval) : Js get_response :=
  try_catch
    (let id := or_default id_param (TENANT_ID C) in
     res ← await_select R id;
     when (reportable res.2)
       (log (ConsoleError "Supabase select error"
               (Rejected (default "" res.2))));;
     match res.1 with
     | None => get_reply 200 StatusUnknown
     | Some (r, phone) =>
         get_reply 200 (StatusBody (row_status r) (updated_at r) phone)
     end)
    (λ e, log (ConsoleError "GET /session/:id/status" e);;
          get_reply 500 (GetError "Server error")).

(** [GET /health] *)
Definition get_health : Js get_response :=
  s ← gets sock;
  get_reply 200 (HealthBody true (bool_decide (is_Some s))).

(** [io.on('connection', ...)]: the result lists what is emitted to the new
    observer alone. *)
Definition on_io_connection (socket_id : string) : Js (list io_event) :=
  log (ConsoleLog ("Client connected: " +:+ socket_id));;
  q ← gets latestQr;
  mret (if truthy q then [EvQr q] else []).

End Endpoints.

(** *** The drafts' client start, close handling and send endpoint

    In the drafts [startBot()] is called without [await] and without a
    catch; an exception below stands for one that escapes the handler. *)

Definition draft_startBot (E : env) : Js unit :=
  call E (useMultiFileAuthState "auth_info_baileys");;
  call E fetchLatestBaileysVersion;;
  n ← gets sockets;
  call E makeWASocket;;
  modify (set_sock (Some n)).

(** First draft: every close restarts. *)
Definition draft1_on_connection_update (E : env) (u : ConnectionUpdate)
    : Js unit :=
  when (truthy (qr u))
    (call E (io_emit (EvQr (qr u)));;
     call E (qrcode_generate (qr u)));;
  when (bool_decide (connection u = Some ConnOpen))
    (log (ConsoleLog "WhatsApp connected");;
     call E (io_emit EvConnected));;
  when (bool_decide (connection u = Some ConnClose))
    (log (ConsoleLog "Connection closed. Reconnecting...");;
     draft_startBot E).

(** Second draft: the logout code is told apart; the restart is immediate. *)
Definition draft2_on_connection_update (logged_out_code : Z) (E : env)
    (u : ConnectionUpdate) : Js unit :=
  when (truthy (qr u))
    (call E (io_emit (EvQr (qr u)));;
     call E (qrcode_generate (qr u)));;
  when (bool_decide (connection u = Some ConnOpen))
    (log (ConsoleLog "WhatsApp connected");;
     call E (io_emit EvConnected));;
  when (bool_decide (connection u = Some ConnClose))
    (let reconnect := negb (bool_decide (statusCode u = Some logged_out_code)) in
     log (ConsoleLog (if reconnect
                      then "Connection closed. Reconnecting..."
                      else "Connection closed. Logged out."));;
     when reconnect (draft_startBot E)).

(** [POST /send] of both drafts *)
Definition draft_post_send (E : env) (req : send_request) : Js response :=
  s ← gets sock;
  match s with
  | None => reply 500 (BodyError "WhatsApp not connected")
  | Some _ =>
      call E (sock_sendMessage (to_String (body_to req) +:+ "@s.whatsapp.net")
                (body_message req));;
      reply 200 BodySent
  end.

(** ** State predicates kept by every handler *)

Definition preserves {A} (P : world → Prop) (m : Js A) : Prop :=
  ∀ w, P w → P (m w).1.

(** Predicates that do not look at the stores, the channel, the console, the
    clock, the timers or the client counter. *)
Record stable (P : world → Prop) : Prop :=
  { stable_record : ∀ i w, P w → P (record_call i w);
    stable_perform : ∀ c w, P w → P (perform c w);
    stable_sb_perform : ∀ c w, P w → P (sb_perform c w);
    stable_console : ∀ l w, P w → P (set_console l w);
    stable_timers : ∀ t w, P w → P (set_timers t w);
    stable_savedState : ∀ s w, P w → P (set_savedState s w);
    stable_now : ∀ t w, P w → P (set_now t w);
    stable_sock : ∀ n w, P w → P (set_sock (Some n) w);
    stable_latestQr : ∀ q w, truthy q = true → P w → P (set_latestQr q w) }.

(** A program from which no exception escapes. *)
Definition never_throws {A} (m : Js A) : Prop := ∀ w, ∃ a, (m w).2 = inr a.

(** The three calls of [startBot], in order. *)
Definition start_calls (C : config) : list extcall :=
  [useMultiFileAuthState (AUTH_DIR C); fetchLatestBaileysVersion; makeWASocket].

Definition bad_body : response :=
  {| code := 400;
     body := BodyError "Missing to, message, or message exceeds 1000 characters" |}.

Definition bad_phone : response :=
  {| code := 400; body := BodyError "Invalid phone format" |}.

Definition no_client : response :=
  {| code := 500; body := BodyError "WhatsApp not connected" |}.

Definition keyless_error : exn :=
  TypeError "Cannot read properties of undefined (reading 'remoteJid')".

Definition status_unknown : get_response :=
  {| get_code := 200; get_body_of := StatusUnknown |}.

Definition server_error : get_response :=
  {| get_code := 500; get_body_of := GetError "Server error" |}.

(** The status the [connection.update] handler stores for an update. *)
Definition stored_status (C : config) (u : ConnectionUpdate) : status :=
  match connection u with
  | Some ConnOpen => connected
  | _ => if shouldReconnect C u then reconnecting else logged_out
  end.

(** Further concrete events, environments and requests. *)

Definition qr_event : ConnectionUpdate :=
  {| connection := None; statusCode := None; qr := JStr "2@k9,aGVsbG8=,d29ybGQ=" |}.

Definition open_event : ConnectionUpdate :=
  {| connection := Some ConnOpen; statusCode := None; qr := JUndefined |}.

Definition reads_done : read_env :=
  {| redis_get := λ _, Done; select_single := λ _, SbDone;
     phone_of := λ _, JNull |}.

(** The credential directory cannot be read; everything else completes. *)
Definition auth_down : env :=
  {| ext := λ c, match c with
                 | useMultiFileAuthState _ => Throws "auth dir unreadable"
                 | _ => Done
                 end;
     sb := λ _, SbDone |}.

(** The client refuses to send; everything else completes. *)
Definition send_down : env :=
  {| ext := λ c, match c with
                 | sock_sendMessage _ _ => Throws "Connection Closed"
                 | _ => Done
                 end;
     sb := λ _, SbDone |}.

Fixpoint filler (n : nat) : string :=
  match n with
  | O => ""
  | S n => String "a" (filler n)
  end.

Definition short_phone_request : send_request :=
  {| x_api_key := JStr "s3cret"; body_to := JStr "12-34";
     body_message := JStr "Hello" |}.

Definition keyless_msg : WAMessage :=
  {| key := None;
     message := Some {| conversation := JStr "hello"; extendedTextMessage := None;
                        imageMessage := None |};
     messageTimestamp := None |}.

Definition reply_msg : WAMessage :=
  {| key := Some peer_key;
     message := Some {| conversation := JUndefined;
                        extendedTextMessage :=
                          Some {| text := JStr "see you at 5"; contextInfo := None |};
                        imageMessage := None |};
     messageTimestamp := Some 1700000002 |}.

(** After the first pairing code. *)
Definition paired : world :=
  (on_connection_update demo_config all_done qr_event booted).1.

(** After a lost connection: one restart pending. *)
Definition closing : world :=
  (on_connection_update demo_config all_done connection_lost booted).1.

(** *** [POST /send] as the framework hands it over

    [req.body] is the parsed JSON object, or undefined when no body was
    parsed; destructuring an undefined body throws inside the handler's
    [try], after the credential test. *)

Record http_request :=
  { header_x_api_key : jsval;
    parsed_body : option (jsval * jsval) }.   (* to, message *)

Definition destructure_error : exn :=
  TypeError "Cannot destructure property 'to' of 'req.body' as it is undefined.".

Section RawSend.

Variable C : config.

Definition post_send_raw (E : env) (hreq : http_request) : Js response :=
  match parsed_body hreq with
  | Some (to, msg) =>
      post_send C E {| x_api_key := header_x_api_key hreq;
                       body_to := to; body_message := msg |}
  | None =>
      try_catch
        (let apiKey := header_x_api_key hreq in
         if negb (truthy apiKey) || strict_ne apiKey (API_KEY C)
         then reply 401 (BodyError "Unauthorized")
         else throw destructure_error)
        (λ err, log (ConsoleError "/send error" err);;
                reply 500 (BodyError (exn_string err)))
  end.

End RawSend.

(** Messages that populate several text fields, and messages that carry an
    identifier of their own. *)

Definition text_msg (k : MessageKey) (body ext cap : jsval) : WAMessage :=
  {| key := Some k;
     message := Some {| conversation := body;
                        extendedTextMessage :=
                          Some {| text := ext; contextInfo := None |};
                        imageMessage := Some {| caption := cap |} |};
     messageTimestamp := Some 1700000003 |}.

Definition all_three_msg : WAMessage :=
  text_msg peer_key (JStr "plain") (JStr "extended") (JStr "caption").

Definition extended_and_caption_msg : WAMessage :=
  text_msg peer_key (JStr "") (JStr "extended") (JStr "caption").

Definition caption_only_msg : WAMessage :=
  text_msg peer_key JUndefined JNull (JStr "caption").

Definition tagged_key : MessageKey :=
  {| remoteJid := JStr "2348012345678@s.whatsapp.net"; fromMe := Some false;
     key_id := JStr "3EB0A3"; participant := JUndefined;
     tenant_id := JStr "acme" |}.

Definition quoting (k : MessageKey) (tenant : jsval) : WAMessage :=
  {| key := Some k;
     message :=
       Some {| conversation := JUndefined;
               extendedTextMessage :=
                 Some {| text := JStr "re: order";
                         contextInfo :=
                           Some {| quotedMessage :=
                                     Some {| q_tenant_id := tenant |} |} |};
               imageMessage := None |};
     messageTimestamp := Some 1700000004 |}.

(** Key tagged [acme], nothing quoted. *)
Definition injected_msg : WAMessage := plain tagged_key (JStr "hello").

(** Key tagged [acme], quoted context tagged [globex]. *)
Definition quoted_msg : WAMessage := quoting tagged_key (JStr "globex").

(** Both variables set, to different values. *)
Definition two_ids_config : config :=
  load_config
    {| env_API_KEY := JStr "s3cret"; env_AUTH_DIR := JUndefined;
       env_TENANT_ID := JStr "store-7"; env_WHATSAPP_SESSION_ID := JStr "wa-42" |}
    401.

(** A message without any identifier, in a process with neither TENANT_ID
    nor WHATSAPP_SESSION_ID set. *)
Definition unconfigured_outcome : world * (exn + unit) :=
  on_messages_upsert demo_config all_done {| messages := Some [hello_msg] |}
    booted.

(** The logout is handled while the restart armed by an earlier close is
    still pending; then the delay passes. *)
Definition logged_out_pending : world :=
  (on_connection_update demo_config all_done logged_out_close closing).1.

Definition pending_fired : world :=
  (elapse demo_config all_done 5000 logged_out_pending).1.

Definition bodyless_request : http_request :=
  {| header_x_api_key := JStr "s3cret"; parsed_body := None |}.

Definition long_raw_request : http_request :=
  {| header_x_api_key := JStr "s3cret";
     parsed_body := Some (JStr "+234 (801) 234-5678", JStr (filler 1001)) |}.

(** * Properties *)

(** ** Evaluating handler programs *)

Ltac js_unfold :=
  unfold try_catch, when, reply, log, setTimeout, modify, gets, throw,
    mbind, js_bind, mret, js_ret.

Ltac js_simpl := js_unfold; cbn [fst snd negb].

Example demo_config_ids :
  TENANT_ID demo_config = "dev_tenant" ∧ SESSION_ID demo_config = "dev_tenant"
  ∧ AUTH_DIR demo_config = "auth_info_baileys".
Proof. repeat split. Qed.

Example strip_example :
  strip_non_digits "+234 (801) 234-5678" = "2348012345678".
Proof. reflexivity. Qed.

Example phone_too_short : phone_regex_test (strip_non_digits "12-34") = false.
Proof. reflexivity. Qed.

(** ** Basic facts about the pure helpers *)

Lemma strip_non_digits_all_digits (s : string) :
  all_digits (strip_non_digits s) = true.
Proof.
  induction s as [|c r IH]; [reflexivity|].
  simpl. destruct (is_digit c) eqn:Hc; [|exact IH].
  simpl. rewrite Hc. exact IH.
Qed.

Lemma truthy_JStr (s : string) : s ≠ "" → truthy (JStr s) = true.
Proof. intros H. unfold truthy. by rewrite bool_decide_eq_false_2. Qed.

Lemma or_default_nonempty (v : jsval) (d : string) :
  d ≠ "" → or_default v d ≠ "".
Proof.
  intros Hd. destruct v as [| |s]; simpl; try assumption.
  case_bool_decide; assumption.
Qed.

(** Whatever the process environment, the loaded session identifier is a
    non-empty string: the literal default ends both fallback chains. *)
Lemma load_config_session_nonempty (p : process_env) (c : Z) :
  SESSION_ID (load_config p c) ≠ "" ∧ TENANT_ID (load_config p c) ≠ "".
Proof.
  assert (Ht : TENANT_ID (load_config p c) ≠ "").
  { simpl. apply or_default_nonempty, or_default_nonempty. discriminate. }
  split; [|exact Ht].
  simpl. apply or_default_nonempty. exact Ht.
Qed.

Section Inbound.

Variable C : config.

(** *** Only the head of a batch is looked at *)

(** C10: a [messages.upsert] signal is handled from its first message alone:
    the messages after the first do not influence the outcome (same final
    state, hence no audit row, stream entry or notification of their own),
    in the final server and in the drafts alike, and one signal adds at most
    one entry to each of the three sinks. *)
Theorem upsert_only_first_message (E : env) (m1 : WAMessage)
    (rest : list WAMessage) (w : world) :
  on_messages_upsert C E {| messages := Some (m1 :: rest) |} w
  = on_messages_upsert C E {| messages := Some [m1] |} w
  ∧ draft_on_messages_upsert E {| messages := Some (m1 :: rest) |} w
    = draft_on_messages_upsert E {| messages := Some [m1] |} w
  ∧ let w' := (on_messages_upsert C E {| messages := Some (m1 :: rest) |} w).1 in
    (length (wa_messages w') ≤ length (wa_messages w) + 1)%nat
    ∧ (length (wa_inbound w') ≤ length (wa_inbound w) + 1)%nat
    ∧ (length (io_out w') ≤ length (io_out w) + 1)%nat.
Proof.
  split; [reflexivity|]. split; [reflexivity|].
  unfold on_messages_upsert, first_message. cbn [messages head].
  destruct (from_me m1); [js_simpl; lia|].
  destruct (truthy (tenant_of C m1)); [|js_simpl; simpl; lia].
  cbn [negb]. destruct (key m1) as [k|]; [|js_simpl; simpl; lia].
  js_simpl. unfold call, sb_call.
  destruct (ext E (redis_xadd _ _)); [|simpl; lia].
  destruct (sb E (insert_message _));
    [destruct (ext E (io_emit _))|destruct (ext E (io_emit _))|];
    simpl; rewrite ?length_app; simpl; lia.
Qed.

(** *** Self-originated messages *)

(** C7: a message flagged [fromMe] causes no side effect.  As the head of a
    batch the handler returns with the state untouched (no audit row, no
    stream entry, no notification, no call issued, nothing logged), also
    when delivered through the event loop, and the draft handler does
    nothing either; anywhere later in a batch its presence makes no
    difference to what the handler does. *)
Theorem from_me_no_side_effect (E : env) (msg : WAMessage) (k : MessageKey)
    (rest : list WAMessage) (s : nat) (w : world) :
  key msg = Some k → fromMe k = Some true →
  on_messages_upsert C E {| messages := Some (msg :: rest) |} w = (w, inr tt)
  ∧ step C E (SockEvent s (MessagesUpsert {| messages := Some (msg :: rest) |})) w
    = (w, inr None)
  ∧ draft_on_messages_upsert E {| messages := Some (msg :: rest) |} w
    = (w, inr tt)
  ∧ ∀ m0 l1 l2,
      on_messages_upsert C E {| messages := Some (m0 :: l1 ++ msg :: l2) |} w
      = on_messages_upsert C E {| messages := Some (m0 :: l1 ++ l2) |} w.
Proof.
  intros Hk Hme.
  assert (Hfm : from_me msg = true).
  { unfold from_me. rewrite Hk. by apply bool_decide_eq_true_2. }
  assert (H1 : on_messages_upsert C E {| messages := Some (msg :: rest) |} w
               = (w, inr tt)).
  { unfold on_messages_upsert, first_message. cbn [messages head].
    rewrite Hfm. reflexivity. }
  split; [exact H1|]. split; [|split; [|reflexivity]].
  - unfold step, dispatch. js_simpl.
    case_bool_decide; [|reflexivity].
    rewrite H1. reflexivity.
  - unfold draft_on_messages_upsert. cbn [messages head].
    rewrite Hk, (bool_decide_eq_true_2 _ Hme). reflexivity.
Qed.

(** *** Display text *)

Lemma text_of_spec (msg : WAMessage) :
  text_of msg
  = spec_display_text [plain_text msg; extended_text msg; image_caption msg].
Proof.
  unfold text_of, js_or. simpl.
  destruct (truthy (plain_text msg)) eqn:H1; [by rewrite !H1|].
  destruct (truthy (extended_text msg)) eqn:H2; [by rewrite H2|].
  reflexivity.
Qed.

Lemma text_of_null (msg : WAMessage) :
  truthy (plain_text msg) = false →
  truthy (extended_text msg) = false →
  truthy (image_caption msg) = false →
  text_of msg = JNull.
Proof. intros H1 H2 H3. unfold text_of, js_or. by rewrite H1, H2, H3. Qed.

(** The outcome of a message that reaches the three writes, by the answers
    of the environment. *)
Lemma upsert_processed (E : env) (msg : WAMessage) (k : MessageKey)
    (rest : list WAMessage) (w : world) :
  key msg = Some k → fromMe k ≠ Some true →
  truthy (tenant_of C msg) = true →
  on_messages_upsert C E {| messages := Some (msg :: rest) |} w
  = try_catch
      (call E (redis_xadd "wa.inbound" (payload_of msg k (tenant_of C msg)));;
       sb_call E (insert_message
                    (inbound_row (payload_of msg k (tenant_of C msg))));;
       call E (io_emit (EvMsgReceived (remoteJid k) (text_of msg))))
      (λ e, log (ConsoleError "Error handling messages.upsert" e)) w.
Proof.
  intros Hk Hme Ht.
  unfold on_messages_upsert, first_message. cbn [messages head].
  unfold from_me. rewrite Hk, bool_decide_eq_false_2 by exact Hme.
  rewrite Ht. reflexivity.
Qed.

Lemma spec_display_text_null (l : list jsval) :
  Forall (λ v, truthy v = false) l → spec_display_text l = JNull.
Proof.
  induction 1 as [|v l Hv _ IH]; [reflexivity|].
  simpl. rewrite Hv. exact IH.
Qed.

Lemma spec_display_text_populated (l : list jsval) (v : jsval) :
  v ∈ l → truthy v = true → spec_display_text l ≠ JNull.
Proof.
  induction l as [|v0 l IH]; intros Hin Hv.
  - by apply elem_of_nil in Hin.
  - simpl. destruct (truthy v0) eqn:Hv0.
    + intros ->. simpl in Hv0. discriminate.
    + apply elem_of_cons in Hin as [->|Hin]; [congruence|].
      by apply IH.
Qed.

Lemma text_of_fields (msg : WAMessage) :
  text_of msg
  = spec_display_text
      match message msg with
      | Some m => [conversation m;
                   from_option text JUndefined (extendedTextMessage m);
                   from_option caption JUndefined (imageMessage m)]
      | None => []
      end.
Proof.
  rewrite text_of_spec. unfold plain_text, extended_text, image_caption, opt_chain.
  destruct (message msg) as [m|]; [|reflexivity].
  destruct (extendedTextMessage m), (imageMessage m); reflexivity.
Qed.

(** C8: for a message that is processed (it has a key, is not
    self-originated, an identifier resolves) the recorded text is the first
    populated one of the message's [conversation], its
    [extendedTextMessage.text] and its [imageMessage.caption], in that
    order, and null when none of the three is populated or the message has
    no content at all.  In either case, the writes completing, the stream
    entry and the audit row are produced with a payload carrying that text,
    and the notification carries it too. *)
Theorem display_text_first_populated (E : env) (msg : WAMessage)
    (k : MessageKey) (rest : list WAMessage) (w : world) :
  key msg = Some k → fromMe k ≠ Some true →
  truthy (tenant_of C msg) = true →
  completes E → (∀ row, sb E (insert_message row) = SbDone) →
  let fields :=
    match message msg with
    | Some m => [conversation m;
                 from_option text JUndefined (extendedTextMessage m);
                 from_option caption JUndefined (imageMessage m)]
    | None => []
    end in
  let txt := spec_display_text fields in
  let w' := (on_messages_upsert C E {| messages := Some (msg :: rest) |} w).1 in
  (Forall (λ v, truthy v = false) fields → txt = JNull)
  ∧ (∀ v, v ∈ fields → truthy v = true → txt ≠ JNull)
  ∧ (∃ pl, p_text pl = txt
           ∧ wa_inbound w' = wa_inbound w ++ [pl]
           ∧ ∃ row, wa_messages w' = wa_messages w ++ [row]
                    ∧ row_direction row = inbound
                    ∧ row_body row = InboundPayload pl)
  ∧ io_out w' = io_out w ++ [EvMsgReceived (remoteJid k) txt].
Proof.
  intros Hk Hme Ht HE Hsb fields txt w'.
  assert (Htxt : text_of msg = txt) by apply text_of_fields.
  split; [|split; [|split]].
  - apply spec_display_text_null.
  - apply spec_display_text_populated.
  - subst w'. rewrite (upsert_processed E msg k rest w Hk Hme Ht).
    js_simpl. unfold call, sb_call. rewrite !HE, Hsb. simpl.
    exists (payload_of msg k (tenant_of C msg)).
    split; [exact Htxt|]. split; [reflexivity|].
    eexists. repeat split.
  - subst w'. rewrite (upsert_processed E msg k rest w Hk Hme Ht).
    js_simpl. unfold call, sb_call. rewrite !HE, Hsb. simpl.
    by rewrite Htxt.
Qed.

(** *** The three writes are sequenced, not independent *)

(** C3, as the code has it: the handler never lets an exception out, and a
    throwing write is logged once; but the writes run one after the other
    inside a single [try]: the stream append first, then the audit insert,
    then the notification.  A write that throws leaves the earlier ones
    done and the later ones not even attempted.  An audit insert that
    resolves with an error result does not stop the notification. *)
Theorem upsert_effects_sequential (E : env) (msg : WAMessage)
    (k : MessageKey) (rest : list WAMessage) (w : world) :
  key msg = Some k → fromMe k ≠ Some true →
  truthy (tenant_of C msg) = true →
  let p := payload_of msg k (tenant_of C msg) in
  let xadd := redis_xadd "wa.inbound" p in
  let ins := insert_message (inbound_row p) in
  let emit := io_emit (EvMsgReceived (p_chat_id p) (p_text p)) in
  let r := on_messages_upsert C E {| messages := Some (msg :: rest) |} w in
  r.2 = inr tt
  ∧ (∀ e, ext E xadd = Throws e →
       wa_inbound r.1 = wa_inbound w ∧ wa_messages r.1 = wa_messages w
       ∧ io_out r.1 = io_out w
       ∧ calls r.1 = calls w ++ [IExt xadd]
       ∧ console r.1 = console w ++ [upsert_failure e])
  ∧ (ext E xadd = Done → ∀ e, sb E ins = SbThrows e →
       wa_inbound r.1 = wa_inbound w ++ [p] ∧ wa_messages r.1 = wa_messages w
       ∧ io_out r.1 = io_out w
       ∧ calls r.1 = calls w ++ [IExt xadd; ISb ins]
       ∧ console r.1 = console w ++ [upsert_failure e])
  ∧ (ext E xadd = Done → sb_returns (sb E ins) = true →
       wa_inbound r.1 = wa_inbound w ++ [p]
       ∧ wa_messages r.1
         = wa_messages w
           ++ (if sb_applied (sb E ins) then [inbound_row p] else [])
       ∧ calls r.1 = calls w ++ [IExt xadd; ISb ins; IExt emit]
       ∧ match ext E emit with
         | Done => io_out r.1 = io_out w ++ [EvMsgReceived (p_chat_id p) (p_text p)]
                   ∧ console r.1 = console w
         | Throws e => io_out r.1 = io_out w
                       ∧ console r.1 = console w ++ [upsert_failure e]
         end).
Proof.
  intros Hk Hme Ht p xadd ins emit r.
  subst r. rewrite (upsert_processed E msg k rest w Hk Hme Ht).
  fold p. fold xadd. fold ins.
  change (io_emit (EvMsgReceived (remoteJid k) (text_of msg))) with emit.
  js_simpl. unfold call, sb_call.
  destruct (ext E xadd) as [|e0] eqn:Hx;
    [destruct (sb E ins) as [|e1|e1] eqn:Hi;
       [destruct (ext E emit) as [|e2] eqn:He
       |destruct (ext E emit) as [|e2] eqn:He|]|];
    simpl; repeat (first [split | intro]); simplify_eq;
    rewrite <- ?(assoc_L (++)), ?app_nil_r; reflexivity.
Qed.

End Inbound.

(** *** Resolving the identifier in a configured process *)

Lemma quoted_tenant_id_fields (msg : WAMessage) :
  quoted_tenant_id msg
  = from_option q_tenant_id JUndefined
      (((message msg ≫= extendedTextMessage) ≫= contextInfo)
         ≫= quotedMessage).
Proof.
  unfold quoted_tenant_id, opt_chain.
  destruct (message msg) as [m|]; [|reflexivity]. simpl.
  destruct (extendedTextMessage m) as [e|]; [|reflexivity]. simpl.
  destruct (contextInfo e) as [ci|]; [|reflexivity]. simpl.
  destruct (quotedMessage ci); reflexivity.
Qed.

Lemma default_session_id (p : process_env) (c : Z) :
  truthy (env_TENANT_ID p) = false →
  truthy (env_WHATSAPP_SESSION_ID p) = false →
  SESSION_ID (load_config p c) = "dev_tenant".
Proof.
  destruct p as [a d t s]. simpl.
  destruct t as [| |x]; destruct s as [| |y]; simpl;
    repeat case_bool_decide; simpl; try reflexivity; try discriminate.
Qed.

(** C9, as the code has it: in a process whose constants were loaded from
    the environment an identifier always resolves, and no message is dropped
    for lack of one.  For a message with a key that is not self-originated,
    the identifier is the [tenant_id] of the quoted message in the extended
    text's context when that is populated, else the [tenant_id] injected in
    the message key when populated, else the session identifier, which is
    never empty: it is ['dev_tenant'] when neither variable is set.  The
    warning is not printed, and the stream append is attempted with a
    payload that carries exactly that identifier. *)
Theorem tenant_resolution (p : process_env) (c : Z) (E : env)
    (msg : WAMessage) (k : MessageKey) (rest : list WAMessage) (w : world) :
  key msg = Some k → fromMe k ≠ Some true →
  let cfg := load_config p c in
  let quoted :=
    from_option q_tenant_id JUndefined
      (((message msg ≫= extendedTextMessage) ≫= contextInfo)
         ≫= quotedMessage) in
  let id := if truthy quoted then quoted
            else if truthy (tenant_id k) then tenant_id k
            else JStr (SESSION_ID cfg) in
  let r := on_messages_upsert cfg E {| messages := Some (msg :: rest) |} w in
  truthy id = true
  ∧ SESSION_ID cfg ≠ ""
  ∧ (truthy (env_TENANT_ID p) = false →
     truthy (env_WHATSAPP_SESSION_ID p) = false →
     SESSION_ID cfg = "dev_tenant")
  ∧ (no_tenant_warning ∉ drop (length (console w)) (console (fst r)))
  ∧ ∃ pl, p_tenant_id pl = id
          ∧ (∃ later, calls r.1
                      = calls w ++ IExt (redis_xadd "wa.inbound" pl) :: later)
          ∧ (ext E (redis_xadd "wa.inbound" pl) = Done →
             wa_inbound r.1 = wa_inbound w ++ [pl]
             ∧ (sb E (insert_message (inbound_row pl)) = SbDone →
                ∃ row, wa_messages r.1 = wa_messages w ++ [row]
                       ∧ store_id row = id)).
Proof.
  intros Hk Hme cfg quoted id r.
  destruct (load_config_session_nonempty p c) as [Hsess _]. fold cfg in Hsess.
  assert (Htid : tenant_of cfg msg = id).
  { unfold tenant_of, js_or, injected_tenant_id, opt_chain at 1.
    rewrite quoted_tenant_id_fields, Hk. fold quoted. subst id.
    destruct (truthy quoted) eqn:Hq; [by rewrite Hq|]. reflexivity. }
  assert (Hid : truthy id = true).
  { subst id. destruct (truthy quoted) eqn:Hq; [exact Hq|].
    destruct (truthy (tenant_id k)) eqn:Hi; [exact Hi|].
    apply truthy_JStr, Hsess. }
  split; [exact Hid|]. split; [exact Hsess|].
  split; [apply default_session_id|].
  assert (Ht : truthy (tenant_of cfg msg) = true) by (rewrite Htid; exact Hid).
  subst r. rewrite (upsert_processed cfg E msg k rest w Hk Hme Ht).
  rewrite Htid. js_simpl. unfold call, sb_call. split.
  - destruct (ext E (redis_xadd _ _));
      [destruct (sb E (insert_message _));
         [destruct (ext E (io_emit _))|destruct (ext E (io_emit _))|]|];
      simpl; rewrite ?drop_all, ?drop_app_length; intros Hin;
      rewrite ?elem_of_cons, ?elem_of_nil in Hin;
      unfold no_tenant_warning in Hin; intuition discriminate.
  - exists (payload_of msg k id). split; [reflexivity|]. split.
    + destruct (ext E (redis_xadd _ _));
        [destruct (sb E (insert_message _));
           [destruct (ext E (io_emit _))|destruct (ext E (io_emit _))|]|];
        simpl; rewrite <- ?(assoc_L (++)); eexists; reflexivity.
    + intros Hx. rewrite Hx. split.
      * destruct (sb E (insert_message _));
          [destruct (ext E (io_emit _))|destruct (ext E (io_emit _))|];
          reflexivity.
      * intros Hi. rewrite Hi. exists (inbound_row (payload_of msg k id)).
        split; [|reflexivity].
        destruct (ext E (io_emit _)); reflexivity.
Qed.

Section Outbound.

Variable C : config.

Lemma post_send_accepted (E : env) (req : send_request) (w : world) (h : nat) :
  send_guards_pass C req = true → sock w = Some h →
  post_send C E req w
  = try_catch
      (call E (send_call req);; sb_call E (audit_call C req);; reply 200 BodySent)
      (λ err, log (ConsoleError "/send error" err);;
              reply 500 (BodyError (exn_string err))) w.
Proof.
  unfold send_guards_pass. intros Hg Hs.
  apply andb_true_iff in Hg as [Hg Hp]. apply andb_true_iff in Hg as [Ha Hb].
  apply negb_true_iff in Ha, Hb.
  unfold post_send. rewrite Ha, Hb, Hp. cbn [negb].
  js_simpl. rewrite Hs. reflexivity.
Qed.

Lemma post_send_rejected (E : env) (req : send_request) (w : world) :
  send_guards_pass C req = false ∨ sock w = None →
  ∃ resp, post_send C E req w = (w, inr resp) ∧ body resp ≠ BodySent.
Proof.
  unfold send_guards_pass, post_send. intros H.
  destruct (negb (truthy (x_api_key req)) || strict_ne _ _) eqn:Ha;
    [eexists; split; [reflexivity|discriminate]|].
  destruct (negb (truthy (body_to req)) || _ || _) eqn:Hb;
    [eexists; split; [reflexivity|discriminate]|].
  destruct (phone_regex_test _) eqn:Hp;
    [|eexists; split; [reflexivity|discriminate]].
  destruct H as [H|H]; [discriminate|].
  eexists. js_simpl. rewrite H. split; [reflexivity|discriminate].
Qed.

Lemma strip_nonempty (s : string) :
  0 < str_len (strip_non_digits s) → s ≠ "".
Proof. intros H ->. unfold str_len in H. simpl in H. lia. Qed.

Lemma guards_pass_intro (req : send_request) (secret to msg : string) :
  x_api_key req = JStr secret → secret ≠ "" → API_KEY C = JStr secret →
  body_to req = JStr to → body_message req = JStr msg →
  msg ≠ "" → str_len msg ≤ 1000 →
  6 ≤ str_len (strip_non_digits to) ≤ 20 →
  send_guards_pass C req = true.
Proof.
  intros Hk Hne Hc Ht Hm Hmne Hlen [Hlo Hhi].
  unfold send_guards_pass, strict_ne, phone_regex_test, length_gt.
  rewrite Hk, Hc, Ht, Hm. cbn [to_String].
  rewrite !truthy_JStr, strip_non_digits_all_digits;
    [|exact Hmne|apply strip_nonempty; lia|exact Hne].
  rewrite bool_decide_eq_true_2 by reflexivity. simpl.
  rewrite (proj2 (Z.ltb_ge _ _)) by exact Hlen.
  rewrite (proj2 (Z.leb_le _ _)) by exact Hlo.
  rewrite (proj2 (Z.leb_le _ _)) by exact Hhi.
  reflexivity.
Qed.

(** C6: a request whose credential header is missing, or differs from the
    configured secret, is answered 401 whatever its body, with the state
    untouched: nothing is validated, no client handle is consulted, no call
    is issued.  The same holds when the request goes through the loop. *)
Theorem send_unauthorized (E : env) (req : send_request) (w : world) :
  x_api_key req = JUndefined ∨ x_api_key req ≠ API_KEY C →
  post_send C E req w = (w, inr unauthorized)
  ∧ step C E (HttpSend req) w = (w, inr (Some unauthorized)).
Proof.
  intros H.
  assert (Hg : negb (truthy (x_api_key req))
               || strict_ne (x_api_key req) (API_KEY C) = true).
  { destruct H as [->|H]; [reflexivity|].
    apply orb_true_iff. right. unfold strict_ne.
    by rewrite bool_decide_eq_false_2. }
  assert (H1 : post_send C E req w = (w, inr unauthorized)).
  { unfold post_send. rewrite Hg. reflexivity. }
  split; [exact H1|].
  unfold step. js_simpl. rewrite H1. reflexivity.
Qed.

(** C4: with the right credential, a recipient that strips to 6-20 digits,
    a non-empty message of at most 1000 characters and a live client
    handle, when the send call and the audit insert complete, the answer is
    the success acknowledgement and the audit table gains exactly one row:
    outbound, with [chat_id] the digit string followed by the fixed suffix. *)
Theorem send_valid_one_audit_row (E : env) (req : send_request) (w : world)
    (secret to msg : string) (h : nat) :
  x_api_key req = JStr secret → secret ≠ "" → API_KEY C = JStr secret →
  body_to req = JStr to → body_message req = JStr msg →
  msg ≠ "" → str_len msg ≤ 1000 →
  6 ≤ str_len (strip_non_digits to) ≤ 20 →
  sock w = Some h →
  let jid := strip_non_digits to +:+ "@s.whatsapp.net" in
  ext E (sock_sendMessage jid (JStr msg)) = Done →
  sb E (insert_message (outbound_row C jid (JStr msg))) = SbDone →
  let r := post_send C E req w in
  r.2 = inr sent
  ∧ ∃ row, wa_messages r.1 = wa_messages w ++ [row]
           ∧ chat_id row = JStr (strip_non_digits to +:+ "@s.whatsapp.net")
           ∧ row_direction row = outbound
           ∧ calls r.1 = calls w ++ [IExt (sock_sendMessage jid (JStr msg));
                                     ISb (insert_message row)].
Proof.
  intros Hk Hne Hc Ht Hm Hmne Hlen Hd Hs jid Hsend Hins r.
  pose proof (guards_pass_intro req secret to msg Hk Hne Hc Ht Hm Hmne Hlen Hd)
    as Hg.
  subst r. rewrite (post_send_accepted E req w h Hg Hs).
  unfold send_call, audit_call, send_jid. rewrite Ht, Hm. cbn [to_String].
  change (jid_of (strip_non_digits to)) with jid.
  js_simpl. unfold call, sb_call. rewrite Hsend, Hins. simpl.
  split; [reflexivity|].
  exists (outbound_row C jid (JStr msg)).
  rewrite <- (assoc_L (++)). repeat split.
Qed.

(** C5: the acknowledgement is only ever returned after the send call was
    issued and completed, with the audit insert issued after it.  The audit
    write is best effort: the record store's client reports a failed write
    in the [error] field of the result it resolves to, which the handler
    does not read, so when the write fails in that way (or succeeds) the
    answer to the message already sent stays the acknowledgement, although a
    failed write leaves no audit row. *)
Theorem send_ack_and_audit (E : env) (req : send_request) (w : world) :
  let r := post_send C E req w in
  (∀ resp, r.2 = inr resp → body resp = BodySent →
     ext E (send_call req) = Done
     ∧ sb_returns (sb E (audit_call C req)) = true
     ∧ calls r.1 = calls w ++ [IExt (send_call req); ISb (audit_call C req)])
  ∧ (send_guards_pass C req = true → is_Some (sock w) →
     ext E (send_call req) = Done →
     (sb_returns (sb E (audit_call C req)) = true → r.2 = inr sent)
     ∧ (∀ e, sb E (audit_call C req) = SbError e →
          r.2 = inr sent ∧ wa_messages r.1 = wa_messages w)).
Proof.
  intros r. subst r. split.
  - intros resp Hr Hb.
    destruct (send_guards_pass C req) eqn:Hg; cycle 1.
    { destruct (post_send_rejected E req w (or_introl Hg)) as (x & Hx & Hne).
      rewrite Hx in Hr. simpl in Hr. congruence. }
    destruct (sock w) as [h|] eqn:Hs; cycle 1.
    { destruct (post_send_rejected E req w (or_intror Hs)) as (x & Hx & Hne).
      rewrite Hx in Hr. simpl in Hr. congruence. }
    rewrite (post_send_accepted E req w h Hg Hs) in Hr |- *.
    revert Hr. js_simpl. unfold call, sb_call.
    destruct (ext E (send_call req)) as [|e0];
      [destruct (sb E (audit_call C req)) as [|e1|e1]|];
      simpl; intros Hr; simplify_eq; try discriminate;
      rewrite <- ?(assoc_L (++)); repeat split.
  - intros Hg [h Hs] Hsend.
    rewrite (post_send_accepted E req w h Hg Hs).
    js_simpl. unfold call, sb_call. rewrite Hsend. split.
    + destruct (sb E (audit_call C req)); [reflexivity|reflexivity|discriminate].
    + intros e ->. split; reflexivity.
Qed.

End Outbound.

Section Lifecycle.

Variable C : config.

(** *** [startBot] and the timer *)

Lemma startBot_completes (E : env) (w : world) :
  completes E → startBot C E w = (started C w, inr tt).
Proof.
  intros HE. unfold startBot. js_simpl. unfold call. rewrite !HE. reflexivity.
Qed.

Lemma started_fields (w : world) :
  sockets (started C w) = S (sockets w)
  ∧ sock (started C w) = Some (sockets w)
  ∧ timers (started C w) = timers w
  ∧ wa_sessions (started C w) = wa_sessions w
  ∧ now (started C w) = now w.
Proof. repeat split. Qed.

Lemma elapse_no_timers (E : env) (dt : N) (w : world) :
  timers w = [] → elapse C E dt w = (set_now (now w + Z.of_N dt) w, inr tt).
Proof.
  intros Ht. unfold elapse. js_simpl. simpl. rewrite Ht. simpl.
  destruct w; simpl in *; subst; reflexivity.
Qed.

Lemma elapse_pending (E : env) (dt : N) (w : world) (d : Z) :
  timers w = [(d, RestartBot)] → now w + Z.of_N dt < d →
  elapse C E dt w = (set_now (now w + Z.of_N dt) w, inr tt).
Proof.
  intros Ht Hlt. unfold elapse. js_simpl. simpl. rewrite Ht. simpl.
  unfold is_due. simpl. rewrite (proj2 (Z.leb_gt _ _)) by exact Hlt. simpl.
  destruct w; simpl in *; subst; reflexivity.
Qed.

Lemma elapse_due (E : env) (dt : N) (w : world) (d : Z) :
  timers w = [(d, RestartBot)] → d ≤ now w + Z.of_N dt → completes E →
  elapse C E dt w
  = (started C (set_timers [] (set_now (now w + Z.of_N dt) w)), inr tt).
Proof.
  intros Ht Hle HE. unfold elapse. js_simpl. simpl. rewrite Ht. simpl.
  unfold is_due. simpl. rewrite (proj2 (Z.leb_le _ _)) by exact Hle. simpl.
  js_simpl. rewrite startBot_completes by exact HE. reflexivity.
Qed.

(** *** The close branch of [connection.update] *)

Lemma close_reconnect_fields (E : env) (u : ConnectionUpdate) (w : world) :
  connection u = Some ConnClose → statusCode u ≠ Some (loggedOut C) →
  completes E → sb E (reconnect_upsert C) = SbDone →
  let r := on_connection_update C E u w in
  r.2 = inr tt ∧ now r.1 = now w ∧ sockets r.1 = sockets w
  ∧ sock r.1 = sock w
  ∧ timers r.1 = timers w ++ [(now w + 5000, RestartBot)]
  ∧ wa_sessions r.1 = <[TENANT_ID C := reconnecting_row w]> (wa_sessions w).
Proof.
  intros Hc Hs HE Hu r. subst r.
  unfold on_connection_update, shouldReconnect.
  rewrite Hc, (bool_decide_eq_false_2 _ Hs). simpl.
  js_simpl. unfold sb_call, call. fold (reconnect_upsert C).
  rewrite Hu. destruct (truthy (qr u)); rewrite ?HE; simpl; repeat split.
Qed.

Lemma close_logout_fields (E : env) (u : ConnectionUpdate) (w : world) :
  connection u = Some ConnClose → statusCode u = Some (loggedOut C) →
  completes E → sb E (logout_upsert C) = SbDone →
  let r := on_connection_update C E u w in
  r.2 = inr tt ∧ now r.1 = now w
  ∧ wa_sessions r.1 = <[TENANT_ID C := logged_out_row w]> (wa_sessions w)
  ∧ redis_kv r.1 !! qr_key C = None
  ∧ last (io_out r.1) = Some EvSessionLoggedOut.
Proof.
  intros Hc Hs HE Hu r. subst r.
  unfold on_connection_update, shouldReconnect.
  rewrite Hc, (bool_decide_eq_true_2 _ Hs). simpl.
  js_simpl. unfold sb_call, call. fold (logout_upsert C).
  rewrite Hu. destruct (truthy (qr u)); rewrite ?HE; simpl;
    rewrite lookup_delete_eq, last_snoc; repeat split.
Qed.

(** The handler neither throws nor, on a logout close, touches the timers
    or the clients, whatever the environment answers. *)
Lemma close_logout_no_restart (E : env) (u : ConnectionUpdate) (w : world) :
  connection u = Some ConnClose → statusCode u = Some (loggedOut C) →
  let r := on_connection_update C E u w in
  r.2 = inr tt ∧ timers r.1 = timers w ∧ sockets r.1 = sockets w
  ∧ sock r.1 = sock w.
Proof.
  intros Hc Hs r. subst r.
  unfold on_connection_update, shouldReconnect.
  rewrite Hc, (bool_decide_eq_true_2 _ Hs). simpl.
  js_simpl. unfold sb_call, call. fold (logout_upsert C).
  destruct (truthy (qr u));
    [destruct (ext E (io_emit (EvQr _)));
       [destruct (ext E (qrcode_generate _));
          [destruct (ext E (redis_set _ _ _))|]|]|];
    simpl; try (repeat split; fail);
    (destruct (sb E (logout_upsert C));
       [destruct (ext E (redis_del _));
          [destruct (ext E (io_emit EvSessionLoggedOut))|]
       |destruct (ext E (redis_del _));
          [destruct (ext E (io_emit EvSessionLoggedOut))|]|]);
    simpl; repeat split.
Qed.

Lemma step_connection_update (E : env) (s : nat) (u : ConnectionUpdate)
    (w : world) :
  (s < sockets w)%nat →
  (step C E (SockEvent s (ConnectionUpdateEv u)) w).1
  = (on_connection_update C E u w).1.
Proof.
  intros Hs. unfold step, dispatch. js_simpl.
  rewrite bool_decide_eq_true_2 by exact Hs.
  destruct (on_connection_update C E u w) as [w' [e|[]]]; reflexivity.
Qed.

Lemma step_elapse (E : env) (dt : N) (w : world) :
  (step C E (Elapse dt) w).1 = (elapse C E dt w).1.
Proof.
  unfold step. js_simpl.
  destruct (elapse C E dt w) as [w' [e|[]]]; reflexivity.
Qed.

Lemma close_logout_now (E : env) (u : ConnectionUpdate) (w : world) :
  connection u = Some ConnClose → statusCode u = Some (loggedOut C) →
  now (on_connection_update C E u w).1 = now w.
Proof.
  intros Hc Hs.
  unfold on_connection_update, shouldReconnect.
  rewrite Hc, (bool_decide_eq_true_2 _ Hs). simpl.
  js_simpl. unfold sb_call, call. fold (logout_upsert C).
  destruct (truthy (qr u));
    [destruct (ext E (io_emit (EvQr _)));
       [destruct (ext E (qrcode_generate _));
          [destruct (ext E (redis_set _ _ _))|]|]|];
    simpl; try reflexivity;
    (destruct (sb E (logout_upsert C));
       [destruct (ext E (redis_del _));
          [destruct (ext E (io_emit EvSessionLoggedOut))|]
       |destruct (ext E (redis_del _));
          [destruct (ext E (io_emit EvSessionLoggedOut))|]|]);
    reflexivity.
Qed.

(** C2, as the code has it: on a close whose reason is the logout code, the
    calls completing, the status row of the session becomes [logged_out],
    the pairing code is gone from the cache and [session_logged_out] is the
    notification pushed last.  The handler itself schedules nothing and
    builds nothing, whatever the environment answers: the pending timeouts
    are exactly those from before.  So with no restart pending no client is
    built afterwards, however much time passes; but a restart armed by an
    earlier close is not cancelled by the logout, and when its delay has
    passed a client is built although the session is logged out. *)
Theorem logout_close_terminal (E : env) (u : ConnectionUpdate) (w : world) :
  connection u = Some ConnClose → statusCode u = Some (loggedOut C) →
  let r := on_connection_update C E u w in
  (completes E → sb E (logout_upsert C) = SbDone →
     wa_sessions r.1 = <[TENANT_ID C := logged_out_row w]> (wa_sessions w)
     ∧ redis_kv r.1 !! qr_key C = None
     ∧ last (io_out r.1) = Some EvSessionLoggedOut)
  ∧ timers r.1 = timers w ∧ sockets r.1 = sockets w ∧ sock r.1 = sock w
  ∧ (timers w = [] → ∀ E' dt,
       let w' := (elapse C E' dt r.1).1 in
       sockets w' = sockets w ∧ sock w' = sock w ∧ calls w' = calls r.1)
  ∧ (∀ d E' dt,
       timers w = [(d, RestartBot)] → d ≤ now w + Z.of_N dt → completes E' →
       let w' := (elapse C E' dt r.1).1 in
       sockets w' = S (sockets w) ∧ sock w' = Some (sockets w)
       ∧ wa_sessions w' = wa_sessions r.1).
Proof.
  intros Hc Hs r.
  destruct (close_logout_no_restart E u w Hc Hs) as (_ & Ht & Hn & Hk).
  pose proof (close_logout_now E u w Hc Hs) as Hnow.
  fold r in Ht, Hn, Hk, Hnow.
  split; [|split; [exact Ht|split; [exact Hn|split; [exact Hk|split]]]].
  - intros HE Hu.
    destruct (close_logout_fields E u w Hc Hs HE Hu) as (_ & _ & Hw & Hr & Hl).
    fold r in Hw, Hr, Hl. auto.
  - intros Hnil E' dt w'. subst w'.
    rewrite elapse_no_timers by congruence. simpl. auto.
  - intros d E' dt Hpend Hdue HE' w'. subst w'.
    rewrite (elapse_due E' dt r.1 d) by
      first [congruence | rewrite Hnow; exact Hdue | exact HE'].
    simpl. rewrite Hn. auto.
Qed.

(** C1, as the code has it: on a close whose reason is not the logout code,
    the calls completing, the status row becomes [reconnecting] and one
    timeout is armed, due 5000 ms later, that runs [startBot]; nothing is
    built before it is due, and a client is built once it is.  The timeout
    is never cancelled and [startBot] consults no status: when a logout
    close is handled in the interim, the row reads [logged_out] and the
    restart still builds a new client when the delay has passed. *)
Theorem reconnect_after_fixed_delay (E : env) (u : ConnectionUpdate)
    (w : world) :
  connection u = Some ConnClose → statusCode u ≠ Some (loggedOut C) →
  completes E → sb E (reconnect_upsert C) = SbDone →
  let r := on_connection_update C E u w in
  wa_sessions r.1 = <[TENANT_ID C := reconnecting_row w]> (wa_sessions w)
  ∧ timers r.1 = timers w ++ [(now w + 5000, RestartBot)]
  ∧ sockets r.1 = sockets w
  ∧ (timers w = [] → ∀ E1 dt,
       let w' := (elapse C E1 dt r.1).1 in
       (Z.of_N dt < 5000 → sockets w' = sockets w ∧ timers w' = timers r.1)
       ∧ (5000 ≤ Z.of_N dt → completes E1 →
          sockets w' = S (sockets w) ∧ sock w' = Some (sockets w)
          ∧ timers w' = []))
  ∧ (timers w = [] → ∀ E1 E2 E3 dt1 dt2 s u',
       Z.of_N dt1 < 5000 ≤ Z.of_N dt1 + Z.of_N dt2 →
       (s < sockets w)%nat →
       connection u' = Some ConnClose → statusCode u' = Some (loggedOut C) →
       completes E2 → sb E2 (logout_upsert C) = SbDone → completes E3 →
       let w3 := run C [(E1, Elapse dt1);
                        (E2, SockEvent s (ConnectionUpdateEv u'))] r.1 in
       let w4 := run C [(E3, Elapse dt2)] w3 in
       row_status <$> wa_sessions w3 !! TENANT_ID C = Some logged_out
       ∧ sockets w3 = sockets w
       ∧ row_status <$> wa_sessions w4 !! TENANT_ID C = Some logged_out
       ∧ sockets w4 = S (sockets w) ∧ sock w4 = Some (sockets w)).
Proof.
  intros Hc Hs HE Hu r.
  destruct (close_reconnect_fields E u w Hc Hs HE Hu)
    as (_ & Hnow & Hsk & _ & Htm & Hws).
  fold r in Hnow, Hsk, Htm, Hws.
  split; [exact Hws|]. split; [exact Htm|]. split; [exact Hsk|].
  split.
  - intros Hnil E1 dt w'. rewrite Hnil in Htm. simpl in Htm. split.
    + intros Hlt. subst w'.
      rewrite (elapse_pending E1 dt r.1 _ Htm) by lia. simpl. auto.
    + intros Hge HE1. subst w'.
      rewrite (elapse_due E1 dt r.1 _ Htm) by (lia || exact HE1).
      simpl. rewrite Hsk. auto.
  - intros Hnil E1 E2 E3 dt1 dt2 s u' [Hlt Hge] Hs' Hc' Hlo HE2 Hu2 HE3 w3 w4.
    rewrite Hnil in Htm. simpl in Htm.
    set (w2 := set_now (now r.1 + Z.of_N dt1) r.1).
    assert (H2 : (step C E1 (Elapse dt1) r.1).1 = w2).
    { rewrite step_elapse, (elapse_pending E1 dt1 r.1 _ Htm) by lia.
      reflexivity. }
    assert (H3 : w3 = (on_connection_update C E2 u' w2).1).
    { subst w3. cbn [run]. rewrite H2.
      apply step_connection_update. simpl. rewrite Hsk. exact Hs'. }
    destruct (close_logout_no_restart E2 u' w2 Hc' Hlo) as (_ & Ht3 & Hn3 & _).
    destruct (close_logout_fields E2 u' w2 Hc' Hlo HE2 Hu2)
      as (_ & Hnow3 & Hw3 & _).
    rewrite <- H3 in Ht3, Hn3, Hnow3, Hw3.
    simpl in Ht3, Hn3, Hnow3. rewrite Htm in Ht3. rewrite Hsk in Hn3.
    assert (H4 : w4 = started C (set_timers [] (set_now (now w3 + Z.of_N dt2) w3))).
    { subst w4. cbn [run]. rewrite step_elapse.
      rewrite (elapse_due E3 dt2 w3 _ Ht3) by (lia || exact HE3).
      reflexivity. }
    assert (Hl3 : row_status <$> wa_sessions w3 !! TENANT_ID C = Some logged_out).
    { rewrite Hw3, lookup_insert_eq. reflexivity. }
    split; [exact Hl3|]. split; [exact Hn3|].
    rewrite H4. simpl. rewrite Hn3. auto.
Qed.

End Lifecycle.

(** ** Concrete runs *)

Lemma all_done_completes : completes all_done.
Proof. intros c. reflexivity. Qed.

Example booted_has_client :
  sock booted = Some 0%nat ∧ sockets booted = 1%nat ∧ timers booted = [].
Proof. repeat split. Qed.

Lemma from_me_no_side_effect_witness :
  on_messages_upsert demo_config all_done {| messages := Some [self_msg] |} booted
  = (booted, inr tt).
Proof.
  apply (from_me_no_side_effect demo_config all_done self_msg self_key []
           0%nat booted); reflexivity.
Defined.

Lemma all_store_writes_done (row : message_row) :
  sb all_done (insert_message row) = SbDone.
Proof. reflexivity. Qed.

(** C9 does not hold as stated: the message carries no identifier and the
    process has neither TENANT_ID nor WHATSAPP_SESSION_ID set, yet the
    message is not dropped: no warning is printed, and a stream entry, an
    audit row and a notification are produced under ['dev_tenant']. *)
Lemma unconfigured_not_dropped_counterexample :
  env_TENANT_ID
    {| env_API_KEY := JStr "s3cret"; env_AUTH_DIR := JUndefined;
       env_TENANT_ID := JUndefined; env_WHATSAPP_SESSION_ID := JUndefined |}
  = JUndefined
  ∧ tenant_id peer_key = JUndefined
  ∧ ((message hello_msg ≫= extendedTextMessage) ≫= contextInfo) = None
  ∧ console unconfigured_outcome.1 = console booted
  ∧ p_tenant_id <$> wa_inbound unconfigured_outcome.1 = [JStr "dev_tenant"]
  ∧ store_id <$> wa_messages unconfigured_outcome.1 = [JStr "dev_tenant"]
  ∧ last (io_out unconfigured_outcome.1)
    = Some (EvMsgReceived (JStr "2348012345678@s.whatsapp.net") (JStr "hello")).
Proof. repeat split. Qed.

Lemma tenant_resolution_witness :
  (∃ pl, p_tenant_id pl = JStr "globex"
         ∧ wa_inbound (on_messages_upsert two_ids_config all_done
                         {| messages := Some [quoted_msg] |} booted).1 = [pl])
  ∧ (∃ pl, p_tenant_id pl = JStr "acme"
           ∧ wa_inbound (on_messages_upsert two_ids_config all_done
                           {| messages := Some [injected_msg] |} booted).1 = [pl])
  ∧ (∃ pl, p_tenant_id pl = JStr "wa-42"
           ∧ wa_inbound (on_messages_upsert two_ids_config all_done
                           {| messages := Some [hello_msg] |} booted).1 = [pl]).
Proof.
  split; [|split].
  - destruct (tenant_resolution
                {| env_API_KEY := JStr "s3cret"; env_AUTH_DIR := JUndefined;
                   env_TENANT_ID := JStr "store-7";
                   env_WHATSAPP_SESSION_ID := JStr "wa-42" |} 401 all_done
                quoted_msg tagged_key [] booted)
      as (_ & _ & _ & _ & pl & Hid & _ & Hx); [reflexivity|discriminate|].
    exists pl. split; [exact Hid|]. apply (Hx eq_refl).
  - destruct (tenant_resolution
                {| env_API_KEY := JStr "s3cret"; env_AUTH_DIR := JUndefined;
                   env_TENANT_ID := JStr "store-7";
                   env_WHATSAPP_SESSION_ID := JStr "wa-42" |} 401 all_done
                injected_msg tagged_key [] booted)
      as (_ & _ & _ & _ & pl & Hid & _ & Hx); [reflexivity|discriminate|].
    exists pl. split; [exact Hid|]. apply (Hx eq_refl).
  - destruct (tenant_resolution
                {| env_API_KEY := JStr "s3cret"; env_AUTH_DIR := JUndefined;
                   env_TENANT_ID := JStr "store-7";
                   env_WHATSAPP_SESSION_ID := JStr "wa-42" |} 401 all_done
                hello_msg peer_key [] booted)
      as (_ & _ & _ & _ & pl & Hid & _ & Hx); [reflexivity|discriminate|].
    exists pl. split; [exact Hid|]. apply (Hx eq_refl).
Defined.

Lemma display_text_first_populated_witness :
  last (io_out (on_messages_upsert demo_config all_done
                  {| messages := Some [all_three_msg] |} booted).1)
  = Some (EvMsgReceived (JStr "2348012345678@s.whatsapp.net") (JStr "plain"))
  ∧ last (io_out (on_messages_upsert demo_config all_done
                    {| messages := Some [extended_and_caption_msg] |} booted).1)
    = Some (EvMsgReceived (JStr "2348012345678@s.whatsapp.net") (JStr "extended"))
  ∧ last (io_out (on_messages_upsert demo_config all_done
                    {| messages := Some [caption_only_msg] |} booted).1)
    = Some (EvMsgReceived (JStr "2348012345678@s.whatsapp.net") (JStr "caption"))
  ∧ last (io_out (on_messages_upsert demo_config all_done
                    {| messages := Some [textless_msg] |} booted).1)
    = Some (EvMsgReceived (JStr "2348012345678@s.whatsapp.net") JNull).
Proof.
  split; [|split; [|split]].
  - destruct (display_text_first_populated demo_config all_done all_three_msg
                peer_key [] booted) as (_ & _ & _ & H);
      [reflexivity|discriminate|reflexivity|exact all_done_completes
      |exact all_store_writes_done|].
    rewrite H. apply last_snoc.
  - destruct (display_text_first_populated demo_config all_done
                extended_and_caption_msg peer_key [] booted) as (_ & _ & _ & H);
      [reflexivity|discriminate|reflexivity|exact all_done_completes
      |exact all_store_writes_done|].
    rewrite H. apply last_snoc.
  - destruct (display_text_first_populated demo_config all_done
                caption_only_msg peer_key [] booted) as (_ & _ & _ & H);
      [reflexivity|discriminate|reflexivity|exact all_done_completes
      |exact all_store_writes_done|].
    rewrite H. apply last_snoc.
  - destruct (display_text_first_populated demo_config all_done textless_msg
                peer_key [] booted) as (_ & _ & _ & H);
      [reflexivity|discriminate|reflexivity|exact all_done_completes
      |exact all_store_writes_done|].
    rewrite H. apply last_snoc.
Defined.

Example textless_record_still_produced :
  let w' := (on_messages_upsert demo_config all_done
               {| messages := Some [textless_msg] |} booted).1 in
  length (wa_messages w') = 1%nat ∧ length (wa_inbound w') = 1%nat
  ∧ io_out w' = [EvMsgReceived (JStr "2348012345678@s.whatsapp.net") JNull].
Proof. repeat split. Qed.

(** C3 does not hold as stated: for an inbound message that is neither
    self-originated nor without identifier, when the stream append throws,
    the other two side effects are not performed: no audit row is inserted
    and no notification is pushed (the calls are not even issued), although
    both collaborators were ready to complete them. *)
Lemma side_effects_independent_counterexample :
  from_me hello_msg = false
  ∧ truthy (tenant_of demo_config hello_msg) = true
  ∧ sb stream_down (insert_message (inbound_row
       (payload_of hello_msg peer_key (tenant_of demo_config hello_msg)))) = SbDone
  ∧ ext stream_down (io_emit (EvMsgReceived
       (JStr "2348012345678@s.whatsapp.net") (JStr "hello"))) = Done
  ∧ wa_messages stream_down_outcome.1 = []
  ∧ io_out stream_down_outcome.1 = io_out booted
  ∧ calls stream_down_outcome.1
    = calls booted
      ++ [IExt (redis_xadd "wa.inbound"
                  (payload_of hello_msg peer_key (tenant_of demo_config hello_msg)))].
Proof. repeat split. Qed.

Lemma upsert_effects_sequential_witness :
  stream_down_outcome.2 = inr tt
  ∧ console stream_down_outcome.1
    = console booted ++ [upsert_failure "stream unavailable"].
Proof.
  pose proof (upsert_effects_sequential demo_config stream_down hello_msg
                peer_key [] booted eq_refl) as H.
  destruct H as (H1 & H2 & _); [discriminate|reflexivity|].
  split; [exact H1|].
  apply (H2 "stream unavailable" eq_refl).
Defined.

Example good_request_guards : send_guards_pass demo_config good_request = true.
Proof. reflexivity. Qed.

Lemma send_unauthorized_witness :
  post_send demo_config all_done keyless_request booted
  = (booted, inr unauthorized)
  ∧ post_send demo_config all_done wrong_key_request booted
    = (booted, inr unauthorized).
Proof.
  split.
  - apply (send_unauthorized demo_config all_done keyless_request booted).
    left. reflexivity.
  - apply (send_unauthorized demo_config all_done wrong_key_request booted).
    right. discriminate.
Defined.

Lemma send_valid_one_audit_row_witness :
  (post_send demo_config all_done good_request booted).2 = inr sent
  ∧ ∃ row,
      wa_messages (post_send demo_config all_done good_request booted).1 = [row]
      ∧ chat_id row = JStr "2348012345678@s.whatsapp.net".
Proof.
  destruct (send_valid_one_audit_row demo_config all_done good_request booted
              "s3cret" "+234 (801) 234-5678" "Hello" 0%nat)
    as (Hr & row & Hw & Hc & _);
    [reflexivity|discriminate|reflexivity|reflexivity|reflexivity|discriminate
    |vm_compute; discriminate|vm_compute; split; discriminate
    |reflexivity|reflexivity|reflexivity|].
  split; [exact Hr|]. exists row. split; [exact Hw|exact Hc].
Defined.

Lemma send_ack_and_audit_witness :
  (post_send demo_config audit_refused good_request booted).2 = inr sent
  ∧ wa_messages (post_send demo_config audit_refused good_request booted).1 = [].
Proof.
  destruct (send_ack_and_audit demo_config audit_refused good_request booted)
    as (_ & H).
  destruct H as (_ & H); [reflexivity|by eexists|reflexivity|].
  apply (H "row rejected"). reflexivity.
Defined.

(** C2 does not hold as stated: the logout close is handled while the
    restart armed by an earlier close is pending; the row reads
    [logged_out], the timeout is still there, and when the delay has passed
    a second client is built. *)
Lemma logout_pending_restart_counterexample :
  statusCode logged_out_close = Some (loggedOut demo_config)
  ∧ row_status <$> wa_sessions logged_out_pending !! "dev_tenant"
    = Some logged_out
  ∧ last (io_out logged_out_pending) = Some EvSessionLoggedOut
  ∧ timers logged_out_pending = [(5000, RestartBot)]
  ∧ sockets logged_out_pending = 1%nat
  ∧ row_status <$> wa_sessions pending_fired !! "dev_tenant" = Some logged_out
  ∧ sockets pending_fired = 2%nat
  ∧ last (calls pending_fired) = Some (IExt makeWASocket).
Proof. vm_compute. repeat split. Qed.

Lemma logout_close_terminal_witness :
  let w' := (on_connection_update demo_config all_done logged_out_close booted).1 in
  row_status <$> wa_sessions w' !! "dev_tenant" = Some logged_out
  ∧ redis_kv w' !! "wa:qr:dev_tenant" = None
  ∧ last (io_out w') = Some EvSessionLoggedOut
  ∧ timers w' = [] ∧ sockets w' = 1%nat
  ∧ sockets (elapse demo_config all_done 5000
               (on_connection_update demo_config all_done logged_out_close
                  closing).1).1 = 2%nat.
Proof.
  destruct (logout_close_terminal demo_config all_done logged_out_close booted
              eq_refl eq_refl) as (Hn & Ht & Hs & _).
  destruct (Hn all_done_completes eq_refl) as (Hw & Hr & Hl).
  cbv zeta. rewrite Hw, lookup_insert_eq.
  split; [reflexivity|]. split; [exact Hr|]. split; [exact Hl|].
  split; [exact Ht|]. split; [exact Hs|].
  destruct (logout_close_terminal demo_config all_done logged_out_close closing
              eq_refl eq_refl) as (_ & _ & _ & _ & _ & Hp).
  apply (Hp 5000 all_done 5000%N); [reflexivity|discriminate|].
  exact all_done_completes.
Defined.

Lemma reconnect_after_fixed_delay_witness :
  let w' := (on_connection_update demo_config all_done connection_lost booted).1 in
  row_status <$> wa_sessions w' !! "dev_tenant" = Some reconnecting
  ∧ timers w' = [(5000, RestartBot)]
  ∧ sockets (elapse demo_config all_done 4999 w').1 = 1%nat
  ∧ sockets (elapse demo_config all_done 5000 w').1 = 2%nat.
Proof.
  destruct (reconnect_after_fixed_delay demo_config all_done connection_lost
              booted eq_refl) as (Hw & Ht & _ & He & _);
    [discriminate|exact all_done_completes|reflexivity|].
  cbv zeta. rewrite Hw, lookup_insert_eq.
  split; [reflexivity|]. split; [exact Ht|].
  split.
  - apply (He eq_refl all_done 4999%N). reflexivity.
  - apply (He eq_refl all_done 5000%N); [discriminate|exact all_done_completes].
Defined.

(** C1 does not hold as stated: the logout is handled 1000 ms after the
    close that armed the restart, the session row reads [logged_out], the
    timeout is still pending, and 4000 ms later it fires and builds a second
    client although the row still reads [logged_out]. *)
Lemma restart_suppression_counterexample :
  row_status <$> wa_sessions at_logout !! "dev_tenant" = Some logged_out
  ∧ timers at_logout = [(5000, RestartBot)]
  ∧ sockets at_logout = 1%nat
  ∧ row_status <$> wa_sessions after_delay !! "dev_tenant" = Some logged_out
  ∧ sockets after_delay = 2%nat
  ∧ sock after_delay = Some 1%nat
  ∧ last (calls after_delay) = Some (IExt makeWASocket).
Proof. vm_compute. repeat split. Qed.

(** * Further properties of the server *)

(** ** State predicates kept by every handler *)

Section Preservation.

Context {P : world → Prop}.

Lemma preserves_ret {A} (a : A) : preserves P (mret a).
Proof. intros w H. exact H. Qed.

Lemma preserves_throw {A} (e : exn) : preserves P (throw (A := A) e).
Proof. intros w H. exact H. Qed.

Lemma preserves_gets {A} (f : world → A) : preserves P (gets f).
Proof. intros w H. exact H. Qed.

Lemma preserves_modify (f : world → world) :
  (∀ w, P w → P (f w)) → preserves P (modify f).
Proof. intros Hf w H. apply Hf, H. Qed.

Lemma preserves_bind {A B} (m : Js A) (f : A → Js B) :
  preserves P m → (∀ a, preserves P (f a)) → preserves P (m ≫= f).
Proof.
  intros Hm Hf w H. specialize (Hm w H).
  unfold mbind, js_bind. destruct (m w) as [w' [e|a]]; [exact Hm|].
  apply Hf, Hm.
Qed.

Lemma preserves_try_catch {A} (m : Js A) (h : exn → Js A) :
  preserves P m → (∀ e, preserves P (h e)) → preserves P (try_catch m h).
Proof.
  intros Hm Hh w H. specialize (Hm w H).
  unfold try_catch. destruct (m w) as [w' [e|a]]; [|exact Hm].
  apply Hh, Hm.
Qed.

Lemma preserves_when (b : bool) (m : Js unit) :
  preserves P m → preserves P (when b m).
Proof. intros Hm. destruct b; [exact Hm|apply preserves_ret]. Qed.

Hypothesis HP : stable P.

Lemma preserves_log (l : log_line) : preserves P (log l).
Proof. apply preserves_modify. intros w. apply (stable_console P HP). Qed.

Lemma preserves_setTimeout (cb : callback) (d : Z) :
  preserves P (setTimeout cb d).
Proof. apply preserves_modify. intros w. apply (stable_timers P HP). Qed.

Lemma preserves_call (E : env) (c : extcall) : preserves P (call E c).
Proof.
  intros w H. unfold call. destruct (ext E c); simpl.
  - apply (stable_perform P HP), (stable_record P HP), H.
  - apply (stable_record P HP), H.
Qed.

Lemma preserves_sb_call (E : env) (c : sbcall) : preserves P (sb_call E c).
Proof.
  intros w H. unfold sb_call. destruct (sb E c); simpl.
  - apply (stable_sb_perform P HP), (stable_record P HP), H.
  - apply (stable_record P HP), H.
  - apply (stable_record P HP), H.
Qed.

Variable C : config.

Ltac preserve :=
  repeat first
    [ apply preserves_bind; [|intros ?]
    | apply preserves_try_catch; [|intros ?]
    | apply preserves_when
    | apply preserves_ret
    | apply preserves_throw
    | apply preserves_gets
    | apply preserves_log
    | apply preserves_setTimeout
    | apply preserves_call
    | apply preserves_sb_call
    | match goal with
      | |- preserves _ (if ?b then _ else _) => destruct b
      | |- preserves _ (match ?x with _ => _ end) => destruct x
      | |- preserves _ (let _ := _ in _) => cbv zeta
      end ].

Lemma preserves_startBot (E : env) : preserves P (startBot C E).
Proof.
  unfold startBot. preserve.
  - apply preserves_modify. intros w. apply (stable_savedState P HP).
  - apply preserves_modify. intros w. apply (stable_sock P HP).
Qed.

Lemma preserves_on_creds_update (E : env) : preserves P (on_creds_update E).
Proof. unfold on_creds_update. preserve. Qed.

Lemma preserves_on_connection_update (E : env) (u : ConnectionUpdate) :
  preserves P (on_connection_update C E u).
Proof.
  unfold on_connection_update.
  apply preserves_try_catch; [|intros ?; preserve].
  apply preserves_bind; [|intros ?; preserve].
  unfold when. destruct (truthy (qr u)) eqn:Hq; [|apply preserves_ret].
  apply preserves_bind; [|intros ?; preserve].
  apply preserves_modify. intros w. apply (stable_latestQr P HP), Hq.
Qed.

Lemma preserves_on_messages_upsert (E : env) (m : UpsertEvent) :
  preserves P (on_messages_upsert C E m).
Proof. unfold on_messages_upsert. preserve. Qed.

Lemma preserves_post_send (E : env) (req : send_request) :
  preserves P (post_send C E req).
Proof. unfold post_send, reply. preserve. Qed.

Lemma preserves_run_callbacks (E : env) (l : list callback) :
  preserves P (run_callbacks C E l).
Proof.
  induction l as [|cb l IH]; [apply preserves_ret|].
  cbn [run_callbacks]. apply preserves_bind; [|intros ?; exact IH].
  destruct cb. unfold run_callback.
  apply preserves_try_catch; [apply preserves_startBot|intros ?; preserve].
Qed.

Lemma preserves_elapse (E : env) (dt : N) : preserves P (elapse C E dt).
Proof.
  unfold elapse. preserve.
  - apply preserves_modify. intros w. apply (stable_now P HP).
  - apply preserves_modify. intros w. apply (stable_timers P HP).
  - apply preserves_run_callbacks.
Qed.

Lemma preserves_step (E : env) (i : input) : preserves P (step C E i).
Proof.
  destruct i as [|s ev|req|dt]; cbn [step].
  - apply preserves_bind; [|intros ?; apply preserves_ret].
    apply preserves_try_catch; [apply preserves_startBot|].
    intros ?. apply preserves_log.
  - apply preserves_bind; [apply preserves_gets|intros n].
    apply preserves_bind; [|intros ?; apply preserves_ret].
    destruct (bool_decide (s < n)%nat); [|apply preserves_ret].
    destruct ev; cbn [dispatch].
    + apply preserves_on_creds_update.
    + apply preserves_on_connection_update.
    + apply preserves_on_messages_upsert.
  - apply preserves_bind; [|intros ?; apply preserves_ret].
    apply preserves_post_send.
  - apply preserves_bind; [|intros ?; apply preserves_ret].
    apply preserves_elapse.
Qed.

Lemma preserves_run (tr : list (env * input)) (w : world) :
  P w → P (run C tr w).
Proof.
  revert w. induction tr as [|[E i] tr IH]; intros w H; [exact H|].
  cbn [run]. apply IH, preserves_step, H.
Qed.

End Preservation.

Lemma truthy_inv' (v : jsval) :
  truthy v = true → ∃ s, v = JStr s ∧ s ≠ "".
Proof.
  destruct v as [| |s]; simpl; try discriminate.
  intros H. exists s. split; [reflexivity|].
  intros ->. discriminate.
Qed.

(** ** Phone normalisation *)




(** ** Configuration *)

(** X2: the identifiers a process loads.  Both are non-empty; the session
    identifier is WHATSAPP_SESSION_ID when that is set and the tenant
    identifier otherwise; the tenant identifier is TENANT_ID when set, else
    WHATSAPP_SESSION_ID when set, else the literal default.  They differ
    exactly when both variables are set to different values. *)
Theorem load_config_identifiers (p : process_env) (c : Z) :
  let cfg := load_config p c in
  SESSION_ID cfg ≠ "" ∧ TENANT_ID cfg ≠ ""
  ∧ (∀ s, env_WHATSAPP_SESSION_ID p = JStr s → s ≠ "" → SESSION_ID cfg = s)
  ∧ (truthy (env_WHATSAPP_SESSION_ID p) = false →
     SESSION_ID cfg = TENANT_ID cfg)
  ∧ (∀ t, env_TENANT_ID p = JStr t → t ≠ "" → TENANT_ID cfg = t)
  ∧ (truthy (env_TENANT_ID p) = false → TENANT_ID cfg = SESSION_ID cfg)
  ∧ (truthy (env_TENANT_ID p) = false →
     truthy (env_WHATSAPP_SESSION_ID p) = false →
     TENANT_ID cfg = "dev_tenant").
Proof.
  intros cfg. subst cfg.
  destruct (load_config_session_nonempty p c) as [Hs Ht].
  split; [exact Hs|]. split; [exact Ht|].
  destruct p as [k a t s]. simpl in *. repeat split.
  - intros x -> Hx. simpl. by rewrite bool_decide_eq_false_2.
  - destruct s as [| |x]; simpl; try reflexivity.
    case_bool_decide; [reflexivity|discriminate].
  - intros x -> Hx. simpl. by rewrite bool_decide_eq_false_2.
  - destruct t as [| |x]; simpl;
      try (destruct s as [| |y]; simpl; try reflexivity;
           case_bool_decide; reflexivity).
    case_bool_decide; [|discriminate]. intros _.
    destruct s as [| |y]; simpl; try reflexivity.
    case_bool_decide; reflexivity.
  - destruct t as [| |x]; simpl;
      destruct s as [| |y]; simpl; try reflexivity; try discriminate;
      repeat case_bool_decide; try reflexivity; try discriminate.
Qed.

(** X3: startup goes on exactly when the four store settings are all
    non-empty strings; otherwise the process exits with code 1, and a
    missing record-store setting is the one reported even when the
    key-value store settings are missing too. *)
Theorem check_config_proceeds_iff (p : store_env) :
  (check_config p = Proceed ↔
   truthy (env_SUPABASE_URL p) = true
   ∧ truthy (env_SUPABASE_SERVICE_ROLE_KEY p) = true
   ∧ truthy (env_UPSTASH_REST_URL p) = true
   ∧ truthy (env_UPSTASH_REDIS_TOKEN p) = true)
  ∧ (check_config p ≠ Proceed → ∃ msg, check_config p = ProcessExit 1 msg)
  ∧ (truthy (env_SUPABASE_URL p) = false
     ∨ truthy (env_SUPABASE_SERVICE_ROLE_KEY p) = false →
     check_config p
     = ProcessExit 1
         "Missing Supabase config. Set SUPABASE_URL and SUPABASE_SERVICE_ROLE_KEY.").
Proof.
  unfold check_config.
  destruct (truthy (env_SUPABASE_URL p)),
    (truthy (env_SUPABASE_SERVICE_ROLE_KEY p)),
    (truthy (env_UPSTASH_REST_URL p)),
    (truthy (env_UPSTASH_REDIS_TOKEN p)); simpl;
    (split; [split; [try discriminate; intros _; repeat split
                    |intros (?&?&?&?); try discriminate; reflexivity]|]);
    (split; [intros H; try (exfalso; apply H; reflexivity); eexists; reflexivity|]);
    intros [?|?]; try discriminate; reflexivity.
Qed.

(** ** Origin check *)

(** X4: a request without origin is let through; one with an origin is let
    through exactly when the origin is, character for character, one of the
    three listed strings.  No origin is accepted both with and without a
    trailing slash, so the two listed origins that end in a slash are
    refused in the form without it. *)
Theorem cors_origin_exact_match (origin : jsval) :
  (cors_origin origin = CorsAllow ↔
   truthy origin = false
   ∨ origin = JStr "http://localhost:5173"
   ∨ origin = JStr "https://vendora-whats.lovable.app/"
   ∨ origin = JStr "https://preview--vendora-whats.lovable.app/")
  ∧ (cors_origin origin ≠ CorsAllow →
     cors_origin origin = CorsDeny "CORS not allowed")
  ∧ (∀ s, origin = JStr s → s ≠ "" →
     cors_origin (JStr (s +:+ "/")) = CorsAllow →
     cors_origin origin = CorsDeny "CORS not allowed").
Proof.
  split; [|split].
  - unfold cors_origin. destruct (truthy origin) eqn:Ht; simpl.
    + destruct (truthy_inv' origin Ht) as (s & -> & Hs). simpl.
      unfold allowed. rewrite bool_decide_decide.
      destruct (decide _) as [Hin|Hin];
        rewrite !elem_of_cons, elem_of_nil in Hin; split.
      * intros _. right.
        destruct Hin as [->|[->|[->|[]]]]; auto.
      * reflexivity.
      * discriminate.
      * intros [?|H]; [discriminate|]. exfalso. apply Hin.
        destruct H as [[= ->]|[[= ->]|[= ->]]]; auto.
    + split; [intros _; by left|reflexivity].
  - unfold cors_origin. destruct (negb (truthy origin)); [congruence|].
    destruct (allowed_includes origin); [congruence|reflexivity].
  - intros s -> Hs Hslash. unfold cors_origin.
    rewrite (truthy_JStr s Hs). simpl.
    unfold allowed. rewrite bool_decide_decide.
    destruct (decide _) as [Hin|Hin]; [|reflexivity].
    exfalso. rewrite !elem_of_cons, elem_of_nil in Hin.
    destruct Hin as [->|[->|[->|[]]]]; vm_compute in Hslash; discriminate.
Qed.

(** ** No exception leaves the event loop *)

Lemma never_throws_ret {A} (a : A) : never_throws (mret a).
Proof. intros w. by exists a. Qed.

Lemma never_throws_bind {A B} (m : Js A) (f : A → Js B) :
  never_throws m → (∀ a, never_throws (f a)) → never_throws (m ≫= f).
Proof.
  intros Hm Hf w. destruct (Hm w) as [a Ha].
  unfold mbind, js_bind. destruct (m w) as [w' [e|a']]; [discriminate|].
  apply Hf.
Qed.

Lemma never_throws_try_catch {A} (m : Js A) (h : exn → Js A) :
  (∀ e, never_throws (h e)) → never_throws (try_catch m h).
Proof.
  intros Hh w. unfold try_catch.
  destruct (m w) as [w' [e|a]]; [apply Hh|by exists a].
Qed.

Lemma never_throws_log (l : log_line) : never_throws (log l).
Proof. intros w. by exists tt. Qed.

Lemma never_throws_modify (f : world → world) : never_throws (modify f).
Proof. intros w. by exists tt. Qed.

Lemma never_throws_gets {A} (f : world → A) : never_throws (gets f).
Proof. intros w. by eexists. Qed.

Lemma never_throws_run_callbacks (C : config) (E : env) (l : list callback) :
  never_throws (run_callbacks C E l).
Proof.
  induction l as [|cb l IH]; [apply never_throws_ret|].
  cbn [run_callbacks]. apply never_throws_bind; [|intros ?; exact IH].
  destruct cb. apply never_throws_try_catch. intros e. apply never_throws_log.
Qed.

Lemma never_throws_dispatch (C : config) (E : env) (ev : sock_event) :
  never_throws (dispatch C E ev).
Proof.
  destruct ev; apply never_throws_try_catch; intros e; apply never_throws_log.
Qed.

Lemma never_throws_post_send (C : config) (E : env) (req : send_request) :
  never_throws (post_send C E req).
Proof.
  apply never_throws_try_catch. intros e.
  apply never_throws_bind; [apply never_throws_log|].
  intros ?. apply never_throws_ret.
Qed.

(** X5: whatever the input and whatever the collaborators answer, one turn
    of the event loop ends without an exception: every handler of the final
    server, the timer callback and the first start catch what is thrown
    below them. *)
Theorem step_never_throws (C : config) (E : env) (i : input) (w : world) :
  ∃ r, (step C E i w).2 = inr r.
Proof.
  revert w. change (never_throws (step C E i)).
  destruct i as [|s ev|req|dt]; cbn [step].
  - apply never_throws_bind; [|intros ?; apply never_throws_ret].
    apply never_throws_try_catch. intros e. apply never_throws_log.
  - apply never_throws_bind; [apply never_throws_gets|intros n].
    apply never_throws_bind; [|intros ?; apply never_throws_ret].
    destruct (bool_decide (s < n)%nat);
      [apply never_throws_dispatch|apply never_throws_ret].
  - apply never_throws_bind; [|intros ?; apply never_throws_ret].
    apply never_throws_post_send.
  - apply never_throws_bind; [|intros ?; apply never_throws_ret].
    unfold elapse.
    apply never_throws_bind; [apply never_throws_modify|intros ?].
    apply never_throws_bind; [apply never_throws_gets|intros ?].
    apply never_throws_bind; [apply never_throws_gets|intros ?].
    apply never_throws_bind; [apply never_throws_modify|intros ?].
    apply never_throws_run_callbacks.
Qed.

(** ** Credentials update *)

(** X6: the [creds.update] handler saves the local credentials and then
    fails on the undeclared [STORE_ID] before any store call is made: the
    session table is never written by it, nothing but [saveCreds] is
    called, one error is printed, and no exception escapes. *)
Theorem creds_update_never_persists (E : env) (w : world) :
  let r := on_creds_update E w in
  r.2 = inr tt
  ∧ wa_sessions r.1 = wa_sessions w
  ∧ calls r.1 = calls w ++ [IExt saveCreds]
  ∧ console r.1
    = console w
      ++ [ConsoleError "Error saving creds to Supabase:"
            match ext E saveCreds with
            | Done => ReferenceError "STORE_ID is not defined"
            | Throws e => Rejected e
            end].
Proof.
  unfold on_creds_update. js_simpl. unfold call.
  destruct (ext E saveCreds); repeat split.
Qed.

Section Restart.

Variable C : config.

(** ** Building a client *)

Lemma startBot_outcome (E : env) (w : world) :
  let r := startBot C E w in
  (completes E → r.2 = inr tt ∧ sock r.1 = Some (sockets w)
                 ∧ sockets r.1 = S (sockets w))
  ∧ (∀ e, r.2 = inl e →
       sock r.1 = sock w ∧ sockets r.1 = sockets w
       ∧ last (console r.1) = Some (ConsoleError "startBot error:" e)
       ∧ ∃ c x, c ∈ start_calls C ∧ ext E c = Throws x ∧ e = Rejected x).
Proof.
  intros r. subst r. split.
  - intros HE. rewrite (startBot_completes C E w HE). repeat split.
  - intros e. unfold startBot, start_calls. js_simpl. unfold call.
    destruct (ext E (useMultiFileAuthState _)) as [|x1] eqn:H1; simpl.
    + destruct (ext E fetchLatestBaileysVersion) as [|x2] eqn:H2; simpl.
      * destruct (ext E makeWASocket) as [|x3] eqn:H3; simpl; [discriminate|].
        intros [= <-]. rewrite last_snoc.
        split; [reflexivity|]. split; [reflexivity|]. split; [reflexivity|].
        exists makeWASocket, x3. rewrite !elem_of_cons. auto 6.
      * intros [= <-]. rewrite last_snoc.
        split; [reflexivity|]. split; [reflexivity|]. split; [reflexivity|].
        exists fetchLatestBaileysVersion, x2. rewrite !elem_of_cons. auto 6.
    + intros [= <-]. rewrite last_snoc.
      split; [reflexivity|]. split; [reflexivity|]. split; [reflexivity|].
      exists (useMultiFileAuthState (AUTH_DIR C)), x1.
      rewrite !elem_of_cons. auto 6.
Qed.


Lemma startBot_timers (E : env) (w : world) :
  timers (startBot C E w).1 = timers w.
Proof.
  unfold startBot. js_simpl. unfold call.
  destruct (ext E (useMultiFileAuthState _)); simpl; [|reflexivity].
  destruct (ext E fetchLatestBaileysVersion); simpl; [|reflexivity].
  destruct (ext E makeWASocket); reflexivity.
Qed.

Lemma run_callbacks_sockets (E : env) (l : list callback) (w : world) :
  completes E →
  sockets (run_callbacks C E l w).1 = (sockets w + length l)%nat
  ∧ timers (run_callbacks C E l w).1 = timers w
  ∧ now (run_callbacks C E l w).1 = now w.
Proof.
  intros HE. revert w. induction l as [|[] l IH]; intros w.
  - simpl. repeat split. lia.
  - cbn [run_callbacks run_callback]. js_simpl.
    rewrite (startBot_completes C E w HE). cbn [fst snd].
    destruct (IH (started C w)) as (Hs & Ht & Hn).
    destruct (run_callbacks C E l (started C w)) as [w' [e|[]]];
      simpl in *; rewrite ?Hs, ?Ht, ?Hn; repeat split; lia.
Qed.

(** X8: restarts are not coalesced.  When time passes, every timeout that
    has come due builds its own client (the calls completing) and the
    others stay armed; so two closes handled before the delay has passed
    end in two new clients. *)
Theorem restarts_not_coalesced (E : env) (dt : N) (w : world) :
  completes E →
  let t := now w + Z.of_N dt in
  let w' := (elapse C E dt w).1 in
  sockets w' = (sockets w + length (List.filter (is_due t) (timers w)))%nat
  ∧ timers w' = List.filter (λ x, negb (is_due t x)) (timers w)
  ∧ (∀ E1 E2 u1 u2,
       timers w = [] → 5000 ≤ Z.of_N dt →
       connection u1 = Some ConnClose → statusCode u1 ≠ Some (loggedOut C) →
       connection u2 = Some ConnClose → statusCode u2 ≠ Some (loggedOut C) →
       completes E1 → sb E1 (reconnect_upsert C) = SbDone →
       completes E2 → sb E2 (reconnect_upsert C) = SbDone →
       let w2 := (on_connection_update C E2 u2
                    (on_connection_update C E1 u1 w).1).1 in
       sockets (elapse C E dt w2).1 = (sockets w + 2)%nat).
Proof.
  intros HE t w'.
  assert (Hgen : ∀ w0,
    sockets (elapse C E dt w0).1
    = (sockets w0
       + length (List.filter (is_due (now w0 + Z.of_N dt)) (timers w0)))%nat
    ∧ timers (elapse C E dt w0).1
      = List.filter (λ x, negb (is_due (now w0 + Z.of_N dt) x)) (timers w0)).
  { intros w0. unfold elapse. js_simpl. simpl.
    match goal with |- context [run_callbacks C E ?l ?w1] =>
      destruct (run_callbacks_sockets E l w1 HE) as (Hs & Ht & _);
      destruct (run_callbacks C E l w1) as [w2 [e|[]]] end;
      simpl in *; rewrite Hs, Ht, length_map; split; reflexivity. }
  destruct (Hgen w) as [H1 H2]. split; [exact H1|]. split; [exact H2|].
  intros E1 E2 u1 u2 Hnil Hdt Hc1 Hs1 Hc2 Hs2 HE1 Hu1 HE2 Hu2 w2.
  destruct (close_reconnect_fields C E1 u1 w Hc1 Hs1 HE1 Hu1)
    as (_ & Hn1 & Hk1 & _ & Ht1 & _).
  set (w1 := (on_connection_update C E1 u1 w).1) in *.
  destruct (close_reconnect_fields C E2 u2 w1 Hc2 Hs2 HE2 Hu2)
    as (_ & Hn2 & Hk2 & _ & Ht2 & _).
  fold w2 in Hn2, Hk2, Ht2.
  destruct (Hgen w2) as [H3 _]. rewrite H3, Ht2, Ht1, Hnil, Hk2, Hk1, Hn2, Hn1.
  simpl. unfold is_due. simpl.
  rewrite (proj2 (Z.leb_le _ _)) by lia. simpl. lia.
Qed.

(** X9: a restart that fails is not tried again.  With one restart pending
    and due, when one of the three calls of [startBot] throws, the timeout
    is consumed, the failure is printed, handle and client count stay as
    they were, and no later lapse of time builds a client. *)
Theorem failed_restart_not_retried (E : env) (dt : N) (w : world) (d : Z)
    (c : extcall) (x : string) :
  timers w = [(d, RestartBot)] → d ≤ now w + Z.of_N dt →
  c ∈ start_calls C → ext E c = Throws x →
  let w1 := (elapse C E dt w).1 in
  timers w1 = [] ∧ sockets w1 = sockets w ∧ sock w1 = sock w
  ∧ (∃ e, last (console w1) = Some (ConsoleError "Reconnect failed" e))
  ∧ ∀ E' dt', let w2 := (elapse C E' dt' w1).1 in
              sockets w2 = sockets w ∧ sock w2 = sock w.
Proof.
  intros Ht Hd Hc Hx w1.
  assert (H1 : timers w1 = [] ∧ sockets w1 = sockets w ∧ sock w1 = sock w
               ∧ ∃ e, last (console w1)
                      = Some (ConsoleError "Reconnect failed" e)).
  { subst w1. unfold elapse. js_simpl. simpl. rewrite Ht. simpl.
    unfold is_due. simpl. rewrite (proj2 (Z.leb_le _ _)) by exact Hd. simpl.
    js_simpl.
    match goal with |- context [startBot C E ?w0] =>
      pose proof (startBot_outcome E w0) as [_ Hf];
      pose proof (startBot_timers E w0) as Htm;
      destruct (startBot C E w0) as [w' [e|[]]] eqn:Hsb end.
    - destruct (Hf e eq_refl) as (Hs & Hk & _). simpl in *.
      rewrite last_snoc. repeat split; try assumption. by eexists.
    - exfalso. revert Hsb. unfold startBot, start_calls in *.
      rewrite !elem_of_cons, elem_of_nil in Hc.
      js_simpl. unfold call.
      destruct Hc as [->|[->|[->|[]]]]; rewrite ?Hx; simpl;
        repeat (match goal with
                | |- context [match ext E ?c with _ => _ end] =>
                    destruct (ext E c) eqn:?; simpl
                end); try discriminate; congruence. }
  destruct H1 as (Hnil & Hk & Hs & He).
  split; [exact Hnil|]. split; [exact Hk|]. split; [exact Hs|].
  split; [exact He|].
  intros E' dt' w2. subst w2.
  rewrite (elapse_no_timers C E' dt' w1 Hnil). simpl. auto.
Qed.

End Restart.

(** ** What is never reset *)

Lemma stable_has_client : stable (λ w, is_Some (sock w)).
Proof.
  split; try (intros; assumption).
  - intros c w H. destruct c; exact H.
  - intros c w H. destruct c; exact H.
  - intros n w _. by eexists.
Qed.

Lemma stable_has_code : stable (λ w, truthy (latestQr w) = true).
Proof.
  split; try (intros; assumption).
  - intros c w H. destruct c; exact H.
  - intros c w H. destruct c; exact H.
Qed.

Section Observers.

Variable C : config.

(** X10: the client handle, once set, is never cleared: after any run
    (closes, logouts and failed restarts included) it is still set, so the
    health endpoint keeps answering [wa_connected: true]. *)
Theorem client_handle_never_cleared (tr : list (env * input)) (w : world) :
  is_Some (sock w) →
  is_Some (sock (run C tr w))
  ∧ get_health (run C tr w)
    = (run C tr w,
       inr {| get_code := 200; get_body_of := HealthBody true true |}).
Proof.
  intros H.
  pose proof (preserves_run stable_has_client C tr w H) as H'.
  split; [exact H'|].
  unfold get_health, get_reply. js_simpl.
  by rewrite bool_decide_eq_true_2.
Qed.

(** X11: the in-memory pairing code, once set, is never cleared: after any
    run (connected, logged out) a newly connected observer is still sent a
    code, the last one the client issued. *)
Theorem pairing_code_never_forgotten (tr : list (env * input)) (w : world)
    (id : string) :
  truthy (latestQr w) = true →
  let w' := run C tr w in
  truthy (latestQr w') = true
  ∧ (on_io_connection id w').2 = inr [EvQr (latestQr w')].
Proof.
  intros H w'.
  pose proof (preserves_run stable_has_code C tr w H) as H'. fold w' in H'.
  split; [exact H'|].
  unfold on_io_connection. js_simpl. simpl. by rewrite H'.
Qed.

Ltac answer_cases E :=
  repeat match goal with
         | |- context [match ext E ?c with _ => _ end] =>
             destruct (ext E c); simpl
         | |- context [match sb E ?c with _ => _ end] =>
             destruct (sb E c); simpl
         end.

Lemma qr_event_sets_latestQr (E : env) (u : ConnectionUpdate) (w : world) :
  truthy (qr u) = true →
  latestQr (on_connection_update C E u w).1 = qr u.
Proof.
  intros Hq. unfold on_connection_update, shouldReconnect.
  rewrite Hq. js_simpl. unfold call, sb_call.
  destruct (bool_decide (connection u = Some ConnOpen));
    destruct (bool_decide (connection u = Some ConnClose));
    destruct (bool_decide (statusCode u = Some (loggedOut C)));
    simpl; answer_cases E; rewrite ?Hq; simpl; answer_cases E; reflexivity.
Qed.

(** X12: a pairing code issued by the client is remembered before anything
    is pushed or stored, so whatever the collaborators answer, an observer
    that connects afterwards is sent exactly that code, once; an observer
    connecting while no code was ever issued is sent nothing. *)
Theorem observer_replays_last_code (E : env) (u : ConnectionUpdate)
    (id : string) (w : world) :
  (truthy (qr u) = true →
   let w1 := (on_connection_update C E u w).1 in
   latestQr w1 = qr u ∧ (on_io_connection id w1).2 = inr [EvQr (qr u)])
  ∧ (truthy (latestQr w) = false → (on_io_connection id w).2 = inr [])
  ∧ (on_io_connection id w).1
    = set_console (console w ++ [ConsoleLog ("Client connected: " +:+ id)]) w.
Proof.
  split; [|split].
  - intros Hq w1. pose proof (qr_event_sets_latestQr E u w Hq) as Hl.
    fold w1 in Hl. split; [exact Hl|].
    unfold on_io_connection. js_simpl. simpl. by rewrite Hl, Hq.
  - intros Hn. unfold on_io_connection. js_simpl. simpl. by rewrite Hn.
  - reflexivity.
Qed.

Lemma qr_event_fields (E : env) (u : ConnectionUpdate) (w : world) :
  truthy (qr u) = true → connection u ≠ Some ConnOpen →
  connection u ≠ Some ConnClose → completes E →
  on_connection_update C E u w
  = (perform (redis_set (qr_key C) (qr u) 300)
       (record_call (IExt (redis_set (qr_key C) (qr u) 300))
          (record_call (IExt (qrcode_generate (qr u)))
             (perform (io_emit (EvQr (qr u)))
                (record_call (IExt (io_emit (EvQr (qr u))))
                   (set_latestQr (qr u) w))))), inr tt).
Proof.
  intros Hq Ho Hc HE. unfold on_connection_update.
  rewrite Hq, !bool_decide_eq_false_2 by assumption.
  js_simpl. unfold call. rewrite !HE. reflexivity.
Qed.

(** X13: round trip of the pairing code through the cache.  After a code
    event (the calls completing) the code is pushed to the observers and
    stored under the session's key for 300 seconds: the [qr] endpoint, asked
    for the session identifier or for no identifier, returns it while less
    than 300 s have passed and answers 404 from then on. *)
Theorem qr_served_until_expiry (E E' : env) (R : read_env)
    (u : ConnectionUpdate) (id : jsval) (dt : N) (w : world) :
  truthy (qr u) = true → connection u ≠ Some ConnOpen →
  connection u ≠ Some ConnClose → completes E →
  timers w = [] → redis_get R (qr_key C) = Done →
  or_default id (SESSION_ID C) = SESSION_ID C →
  let w1 := (on_connection_update C E u w).1 in
  let w2 := (elapse C E' dt w1).1 in
  last (io_out w1) = Some (EvQr (qr u))
  ∧ redis_kv w1 !! qr_key C = Some (qr u, now w + 300000)
  ∧ get_qr C R id w2
    = (w2, inr (if Z.of_N dt <? 300000
                then {| get_code := 200; get_body_of := QrBody (qr u) |}
                else {| get_code := 404;
                        get_body_of := GetError "QR not found or expired" |})).
Proof.
  intros Hq Ho Hc HE Hnil HR Hid w1 w2.
  assert (H1 : w1 = (on_connection_update C E u w).1) by reflexivity.
  rewrite (qr_event_fields E u w Hq Ho Hc HE) in H1. simpl in H1.
  assert (Hkv : redis_kv w1 !! qr_key C = Some (qr u, now w + 300000)).
  { rewrite H1. simpl. rewrite lookup_insert_eq.
    first [reflexivity | repeat f_equal; lia]. }
  split; [rewrite H1; simpl; apply last_snoc|]. split; [exact Hkv|].
  assert (H2 : w2 = set_now (now w1 + Z.of_N dt) w1).
  { subst w2. rewrite elapse_no_timers; [reflexivity|].
    rewrite H1. exact Hnil. }
  assert (Hn : now w1 = now w) by (rewrite H1; reflexivity).
  unfold get_qr, await_redis_get, get_reply. js_simpl. rewrite Hid.
  fold (qr_key C). rewrite HR. unfold redis_value.
  rewrite H2. cbn [redis_kv now set_now]. rewrite Hkv, Hn.
  destruct (Z.ltb_spec (Z.of_N dt) 300000) as [Hlt|Hge].
  - rewrite (proj2 (Z.ltb_lt _ _)) by lia. cbn [fst snd]. rewrite Hq. reflexivity.
  - rewrite (proj2 (Z.ltb_ge _ _)) by lia. reflexivity.
Qed.

Lemma open_event_run (E : env) (u : ConnectionUpdate) (w : world) :
  connection u = Some ConnOpen → truthy (qr u) = false →
  ext E (io_emit EvConnected) = Done →
  on_connection_update C E u w
  = (let w1 := perform (io_emit EvConnected)
                 (record_call (IExt (io_emit EvConnected))
                    (set_console (console w ++ [ConsoleLog "WhatsApp connected"]) w)) in
     let up := upsert_session (TENANT_ID C) connected in
     let w2 := record_call (ISb up) w1 in
     match sb E up with
     | SbThrows e =>
         (set_console
            (console w2 ++ [ConsoleError "Error in connection.update handler"
                              (Rejected e)]) w2, inr tt)
     | a =>
         let w3 := if sb_applied a then sb_perform up w2 else w2 in
         if truthy (latestQr w)
         then match ext E (io_emit (EvQr (latestQr w))) with
              | Done =>
                  (perform (io_emit (EvQr (latestQr w)))
                     (record_call (IExt (io_emit (EvQr (latestQr w)))) w3),
                   inr tt)
              | Throws e =>
                  (let w4 := record_call (IExt (io_emit (EvQr (latestQr w)))) w3 in
                   set_console
                     (console w4 ++ [ConsoleError "Error in connection.update handler"
                                       (Rejected e)]) w4, inr tt)
              end
         else (w3, inr tt)
     end).
Proof.
  intros Ho Hq He. unfold on_connection_update.
  rewrite Ho, Hq. simpl. js_simpl. unfold call, sb_call. rewrite He. simpl.
  destruct (sb E _); simpl; [| |reflexivity];
    destruct (truthy (latestQr w)); simpl; try reflexivity;
    destruct (ext E (io_emit (EvQr (latestQr w)))); reflexivity.
Qed.

(** X14: on [open] the observers are told first, then the status is
    stored, then the remembered pairing code (if any) is pushed again.
    With the calls completing the row reads [connected] and the channel
    gains [connected] followed by the old code.  When the status write
    throws, the observers have been told [connected] all the same, the row
    is unchanged and the code is not pushed again. *)
Theorem open_pushes_then_persists (E : env) (u : ConnectionUpdate) (w : world) :
  connection u = Some ConnOpen → truthy (qr u) = false →
  ext E (io_emit EvConnected) = Done →
  let w1 := (on_connection_update C E u w).1 in
  (sb E (upsert_session (TENANT_ID C) connected) = SbDone →
   ext E (io_emit (EvQr (latestQr w))) = Done →
   wa_sessions w1
   = <[TENANT_ID C := {| row_status := connected; updated_at := now w |}]>
       (wa_sessions w)
   ∧ io_out w1
     = io_out w ++ EvConnected
         :: (if truthy (latestQr w) then [EvQr (latestQr w)] else []))
  ∧ (∀ e, sb E (upsert_session (TENANT_ID C) connected) = SbThrows e →
     wa_sessions w1 = wa_sessions w ∧ io_out w1 = io_out w ++ [EvConnected])
  ∧ timers w1 = timers w ∧ sockets w1 = sockets w.
Proof.
  intros Ho Hq He w1. subst w1. rewrite (open_event_run E u w Ho Hq He).
  cbv zeta. split; [|split].
  - intros Hu Hr. rewrite Hu, Hr. simpl.
    destruct (truthy (latestQr w)); simpl;
      rewrite <- ?(assoc_L (++)); split; reflexivity.
  - intros e Hu. rewrite Hu. simpl. split; reflexivity.
  - destruct (sb E _); simpl; try (split; reflexivity);
      destruct (truthy (latestQr w)); simpl; try (split; reflexivity);
      destruct (ext E (io_emit (EvQr _))); split; reflexivity.
Qed.

(** X15: after a logout the two copies of the pairing code disagree.  The
    handler deletes the cached key, so the [qr] endpoint answers 404; the
    in-memory copy is left as it was, so an observer connecting afterwards
    is still sent the old code. *)
Theorem logout_clears_cache_not_memory (E : env) (R : read_env)
    (u : ConnectionUpdate) (id : jsval) (sid : string) (w : world) :
  connection u = Some ConnClose → statusCode u = Some (loggedOut C) →
  truthy (qr u) = false → completes E → sb E (logout_upsert C) = SbDone →
  redis_get R (qr_key C) = Done →
  or_default id (SESSION_ID C) = SESSION_ID C →
  truthy (latestQr w) = true →
  let w1 := (on_connection_update C E u w).1 in
  get_qr C R id w1
  = (w1, inr {| get_code := 404;
                get_body_of := GetError "QR not found or expired" |})
  ∧ (on_io_connection sid w1).2 = inr [EvQr (latestQr w)].
Proof.
  intros Hc Hs Hq HE Hu HR Hid Hl w1.
  destruct (close_logout_fields C E u w Hc Hs HE Hu) as (_ & _ & _ & Hkv & _).
  fold w1 in Hkv.
  assert (Hlq : latestQr w1 = latestQr w).
  { subst w1. unfold on_connection_update, shouldReconnect.
    rewrite Hc, Hq, (bool_decide_eq_true_2 _ Hs). simpl.
    js_simpl. unfold sb_call, call. fold (logout_upsert C).
    rewrite Hu, !HE. reflexivity. }
  split.
  - unfold get_qr, await_redis_get, get_reply. js_simpl. rewrite Hid.
    fold (qr_key C). rewrite HR. unfold redis_value. rewrite Hkv. reflexivity.
  - unfold on_io_connection. js_simpl. simpl. by rewrite Hlq, Hl.
Qed.

End Observers.

Section SendEndpoint.

Variable C : config.

Lemma credential_accepted (req : send_request) (k : string) :
  x_api_key req = JStr k → k ≠ "" → API_KEY C = JStr k →
  negb (truthy (x_api_key req)) || strict_ne (x_api_key req) (API_KEY C)
  = false.
Proof.
  intros Hk Hne Hc. unfold strict_ne. rewrite Hk, Hc, truthy_JStr by exact Hne.
  by rewrite bool_decide_eq_true_2.
Qed.

(** X16: with the right credential, a request with a parsed body whose
    recipient or message is missing or empty, or whose message is longer
    than 1000 characters, is answered 400 with the state untouched, whether
    or not a client exists.  A request with no parsed body at all fails on
    destructuring inside the [try]: it is answered 500 with that error's
    message, the error is printed, and nothing else changes.  Without the
    right credential a body-less request is answered 401 like any other. *)
Theorem send_rejects_invalid_body (E : env) (hreq : http_request) (w : world)
    (k : string) :
  (header_x_api_key hreq = JStr k → k ≠ "" → API_KEY C = JStr k →
   (∀ to msg, parsed_body hreq = Some (to, msg) →
      truthy to = false ∨ truthy msg = false
      ∨ (∃ m, msg = JStr m ∧ 1000 < str_len m) →
      post_send_raw C E hreq w = (w, inr bad_body))
   ∧ (parsed_body hreq = None →
      post_send_raw C E hreq w
      = (set_console (console w ++ [ConsoleError "/send error" destructure_error]) w,
         inr {| code := 500;
                body := BodyError
                  "Cannot destructure property 'to' of 'req.body' as it is undefined." |})))
  ∧ (header_x_api_key hreq = JUndefined ∨ header_x_api_key hreq ≠ API_KEY C →
     parsed_body hreq = None →
     post_send_raw C E hreq w = (w, inr unauthorized)).
Proof.
  split.
  - intros Hk Hne Hc. split.
    + intros to msg Hb Hbad. unfold post_send_raw. rewrite Hb. unfold post_send.
      cbn [x_api_key body_to body_message].
      pose proof (credential_accepted
                    {| x_api_key := header_x_api_key hreq; body_to := to;
                       body_message := msg |} k Hk Hne Hc) as Hcr.
      cbn [x_api_key] in Hcr. rewrite Hcr.
      assert (Hg : negb (truthy to) || negb (truthy msg) || length_gt msg 1000
                   = true).
      { destruct Hbad as [H|[H|(m & Hm & Hlen)]].
        - by rewrite H.
        - rewrite H. simpl. by rewrite orb_true_r.
        - rewrite Hm. simpl. rewrite (proj2 (Z.ltb_lt _ _)) by exact Hlen.
          by rewrite orb_true_r. }
      rewrite Hg. reflexivity.
    + intros Hb. unfold post_send_raw. rewrite Hb.
      pose proof (credential_accepted
                    {| x_api_key := header_x_api_key hreq; body_to := JUndefined;
                       body_message := JUndefined |} k Hk Hne Hc) as Hcr.
      cbn [x_api_key] in Hcr. rewrite Hcr. reflexivity.
  - intros Hbad Hb. unfold post_send_raw. rewrite Hb.
    assert (Hg : negb (truthy (header_x_api_key hreq))
                 || strict_ne (header_x_api_key hreq) (API_KEY C) = true).
    { destruct Hbad as [->|H]; [reflexivity|].
      apply orb_true_iff. right. unfold strict_ne.
      by rewrite bool_decide_eq_false_2. }
    rewrite Hg. reflexivity.
Qed.

(** X17: with the right credential and a well-formed message, a recipient
    that does not strip to between 6 and 20 digits is answered 400
    [Invalid phone format] with the state untouched; whether the recipient
    is accepted depends on its digits alone. *)
Theorem send_rejects_bad_phone (E : env) (req : send_request) (w : world)
    (k to msg : string) :
  x_api_key req = JStr k → k ≠ "" → API_KEY C = JStr k →
  body_to req = JStr to → to ≠ "" →
  body_message req = JStr msg → msg ≠ "" → str_len msg ≤ 1000 →
  ¬ (6 ≤ str_len (strip_non_digits to) ≤ 20) →
  post_send C E req w = (w, inr bad_phone).
Proof.
  intros Hk Hne Hc Ht Htne Hm Hmne Hlen Hd. unfold post_send.
  rewrite (credential_accepted req k Hk Hne Hc), Ht, Hm.
  rewrite !truthy_JStr by assumption. simpl.
  rewrite (proj2 (Z.ltb_ge _ _)) by exact Hlen.
  unfold phone_regex_test. rewrite strip_non_digits_all_digits. simpl.
  destruct (Z.leb_spec 6 (str_len (strip_non_digits to)));
    destruct (Z.leb_spec (str_len (strip_non_digits to)) 20);
    simpl; try reflexivity.
  exfalso. apply Hd. lia.
Qed.

Lemma post_send_no_client (E : env) (req : send_request) (w : world) :
  send_guards_pass C req = true → sock w = None →
  post_send C E req w = (w, inr no_client).
Proof.
  unfold send_guards_pass. intros Hg Hs.
  apply andb_true_iff in Hg as [Hg Hp]. apply andb_true_iff in Hg as [Ha Hb].
  apply negb_true_iff in Ha, Hb.
  unfold post_send. rewrite Ha, Hb, Hp. js_simpl. rewrite Hs. reflexivity.
Qed.

(** X18: a request that passes the credential and body checks while no
    client was ever built is answered 500 [WhatsApp not connected]; nothing
    is sent or recorded.  The check comes last: it is only reached by
    requests that are otherwise valid. *)
Theorem send_without_client (E : env) (req : send_request) (w : world) :
  sock w = None →
  (send_guards_pass C req = true → post_send C E req w = (w, inr no_client))
  ∧ ∃ resp, post_send C E req w = (w, inr resp) ∧ body resp ≠ BodySent.
Proof.
  intros Hs. split; [intros Hg; exact (post_send_no_client E req w Hg Hs)|].
  exact (post_send_rejected C E req w (or_intror Hs)).
Qed.

(** X19: when the send call throws, the answer is 500 with the error's
    message (or [Error] when it has none), the failure is printed, and the
    audit insert is not attempted: no outbound row is written for a message
    that was not sent. *)
Theorem send_failure_no_audit (E : env) (req : send_request) (w : world)
    (h : nat) (e : string) :
  send_guards_pass C req = true → sock w = Some h →
  ext E (send_call req) = Throws e →
  let r := post_send C E req w in
  r.2 = inr {| code := 500;
               body := BodyError (if bool_decide (e = "") then "Error" else e) |}
  ∧ wa_messages r.1 = wa_messages w
  ∧ calls r.1 = calls w ++ [IExt (send_call req)]
  ∧ console r.1 = console w ++ [ConsoleError "/send error" (Rejected e)].
Proof.
  intros Hg Hs He r. subst r.
  rewrite (post_send_accepted C E req w h Hg Hs).
  js_simpl. unfold call. rewrite He. repeat split.
Qed.

(** X20: [/send] writes nothing but the audit table, and writes that only
    for a message it sent and acknowledges: either the audit table is as
    before, or it gained the one outbound row, the send call completed and
    the answer is the acknowledgement.  The response code is always one of
    200, 400, 401 and 500. *)
Theorem send_audit_only_when_sent (E : env) (req : send_request) (w : world) :
  let r := post_send C E req w in
  (wa_messages r.1 = wa_messages w
   ∨ (wa_messages r.1
      = wa_messages w ++ [outbound_row C (send_jid req) (body_message req)]
      ∧ r.2 = inr sent ∧ ext E (send_call req) = Done))
  ∧ wa_sessions r.1 = wa_sessions w ∧ wa_inbound r.1 = wa_inbound w
  ∧ io_out r.1 = io_out w ∧ redis_kv r.1 = redis_kv w
  ∧ timers r.1 = timers w ∧ sock r.1 = sock w
  ∧ ∃ resp, r.2 = inr resp ∧ code resp ∈ [200; 400; 401; 500].
Proof.
  intros r. subst r.
  destruct (send_guards_pass C req) eqn:Hg; cycle 1.
  { unfold send_guards_pass, post_send in *.
    destruct (negb (truthy (x_api_key req)) || strict_ne _ _) eqn:Ha;
      [simpl; repeat split; auto; eexists; split; [reflexivity|set_solver]|].
    destruct (negb (truthy (body_to req)) || _ || _) eqn:Hb;
      [simpl; repeat split; auto; eexists; split; [reflexivity|set_solver]|].
    destruct (phone_regex_test _) eqn:Hp; [discriminate|].
    simpl; repeat split; auto; eexists; split; [reflexivity|set_solver]. }
  destruct (sock w) as [h|] eqn:Hs; cycle 1.
  { rewrite (post_send_no_client E req w Hg Hs). simpl.
    repeat split; auto. eexists; split; [reflexivity|set_solver]. }
  rewrite (post_send_accepted C E req w h Hg Hs).
  js_simpl. unfold call, sb_call. fold (audit_call C req).
  destruct (ext E (send_call req)) as [|e0];
    [destruct (sb E (audit_call C req)) as [|e1|e1]|]; simpl;
    repeat split; auto; eexists; (split; [reflexivity|set_solver]).
Qed.

End SendEndpoint.

Section InboundEdges.

Variable C : config.

(** X21: a signal without messages (the list missing or empty) is a no-op
    in the final server, whereas the draft handler lets a [TypeError]
    escape on it. *)
Theorem upsert_empty_batch (E : env) (w : world) :
  on_messages_upsert C E {| messages := None |} w = (w, inr tt)
  ∧ on_messages_upsert C E {| messages := Some [] |} w = (w, inr tt)
  ∧ (∃ e : exn,
       draft_on_messages_upsert E {| messages := None |} w = (w, inl e))
  ∧ (∃ e : exn,
       draft_on_messages_upsert E {| messages := Some [] |} w = (w, inl e)).
Proof. repeat split; eexists; reflexivity. Qed.

(** X22: a message without a key passes the [fromMe] test, resolves an
    identifier and then fails on reading its chat id: the handler prints
    that [TypeError] and writes nothing to the stream, the audit table or
    the channel. *)
Theorem upsert_keyless_message (E : env) (msg : WAMessage)
    (rest : list WAMessage) (w : world) :
  key msg = None → truthy (tenant_of C msg) = true →
  on_messages_upsert C E {| messages := Some (msg :: rest) |} w
  = (set_console
       (console w ++ [ConsoleError "Error handling messages.upsert" keyless_error])
       w, inr tt).
Proof.
  intros Hk Ht. unfold on_messages_upsert, first_message, from_me.
  cbn [messages head]. rewrite Hk, Ht. reflexivity.
Qed.

(** X23: in a process whose configuration was loaded from the environment
    the handler never drops a message for lack of an identifier: every
    message with a key that is not self-originated gets as far as the
    stream append, and the warning is never printed. *)
Theorem loaded_config_always_resolves (p : process_env) (c : Z) (E : env)
    (m : UpsertEvent) (w : world) :
  let cfg := load_config p c in
  let r := on_messages_upsert cfg E m w in
  (∀ msg, truthy (tenant_of cfg msg) = true)
  ∧ (no_tenant_warning ∉ drop (length (console w)) (console (fst r)))
  ∧ (∀ msg k rest, m = {| messages := Some (msg :: rest) |} →
       key msg = Some k → fromMe k ≠ Some true →
       ∃ later, calls r.1
                = calls w
                  ++ IExt (redis_xadd "wa.inbound"
                             (payload_of msg k (tenant_of cfg msg))) :: later).
Proof.
  intros cfg r.
  assert (Hres : ∀ msg, truthy (tenant_of cfg msg) = true).
  { intros msg. unfold tenant_of, js_or.
    destruct (truthy (quoted_tenant_id msg)) eqn:Hq; [by rewrite Hq|].
    destruct (truthy (injected_tenant_id msg)) eqn:Hi; [exact Hi|].
    apply truthy_JStr, load_config_session_nonempty. }
  split; [exact Hres|]. split.
  - subst r. unfold on_messages_upsert.
    destruct (first_message m) as [msg|]; js_simpl;
      [|rewrite drop_all; apply not_elem_of_nil].
    destruct (from_me msg); [rewrite drop_all; apply not_elem_of_nil|].
    rewrite Hres. cbn [negb].
    destruct (key msg) as [k|]; simpl.
    + unfold call, sb_call.
      destruct (ext E (redis_xadd _ _));
        [destruct (sb E (insert_message _));
           [destruct (ext E (io_emit _))|destruct (ext E (io_emit _))|]|];
        simpl; rewrite ?drop_all, ?drop_app_length; intros Hin;
        rewrite ?elem_of_cons, ?elem_of_nil in Hin;
        unfold no_tenant_warning in Hin; intuition discriminate.
    + rewrite drop_app_length. intros Hin.
      rewrite elem_of_cons, elem_of_nil in Hin.
      unfold no_tenant_warning in Hin. intuition discriminate.
  - intros msg k rest -> Hk Hme. subst r.
    rewrite (upsert_processed cfg E msg k rest w Hk Hme (Hres msg)).
    js_simpl. unfold call, sb_call.
    destruct (ext E (redis_xadd _ _));
      [destruct (sb E (insert_message _));
         [destruct (ext E (io_emit _))|destruct (ext E (io_emit _))|]|];
      simpl; rewrite <- ?(assoc_L (++)); eexists; reflexivity.
Qed.

(** X24: inbound and outbound audit rows are filed under different
    identifiers.  An inbound row carries the identifier resolved for the
    message: the [tenant_id] of the quoted message in the extended text's
    context when populated, else the [tenant_id] of the message key when
    populated, else the session identifier (the [TENANT_ID] entry of the
    row literal is overridden); an outbound row carries the tenant
    identifier. *)
Theorem audit_rows_store_id (E : env) (msg : WAMessage) (k : MessageKey)
    (rest : list WAMessage) (req : send_request) (h : nat) (w : world) :
  key msg = Some k → fromMe k ≠ Some true →
  let quoted :=
    from_option q_tenant_id JUndefined
      (((message msg ≫= extendedTextMessage) ≫= contextInfo)
         ≫= quotedMessage) in
  let id := if truthy quoted then quoted
            else if truthy (tenant_id k) then tenant_id k
            else JStr (SESSION_ID C) in
  truthy id = true →
  completes E → (∀ row, sb E (insert_message row) = SbDone) →
  send_guards_pass C req = true → sock w = Some h →
  (∃ row, last (wa_messages
                  (on_messages_upsert C E {| messages := Some (msg :: rest) |} w).1)
          = Some row
          ∧ row_direction row = inbound
          ∧ store_id row = id)
  ∧ (∃ row, last (wa_messages (post_send C E req w).1) = Some row
            ∧ row_direction row = outbound
            ∧ store_id row = JStr (TENANT_ID C)).
Proof.
  intros Hk Hme quoted id Hid HE Hsb Hg Hs.
  assert (Htid : tenant_of C msg = id).
  { unfold tenant_of, js_or, injected_tenant_id, opt_chain at 1.
    rewrite quoted_tenant_id_fields, Hk. fold quoted. subst id.
    destruct (truthy quoted) eqn:Hq; [by rewrite Hq|]. reflexivity. }
  assert (Ht : truthy (tenant_of C msg) = true) by (rewrite Htid; exact Hid).
  split.
  - exists (inbound_row (payload_of msg k id)).
    rewrite (upsert_processed C E msg k rest w Hk Hme Ht), Htid.
    js_simpl. unfold call, sb_call. rewrite !HE, Hsb. simpl.
    rewrite last_snoc. repeat split.
  - exists (outbound_row C (send_jid req) (body_message req)).
    rewrite (post_send_accepted C E req w h Hg Hs).
    js_simpl. unfold call, sb_call, audit_call. rewrite !HE, Hsb. simpl.
    rewrite last_snoc. repeat split.
Qed.

End InboundEdges.

Section StatusEndpoint.

Variable C : config.

Lemma open_persists (E : env) (u : ConnectionUpdate) (w : world) :
  connection u = Some ConnOpen → completes E →
  sb E (upsert_session (TENANT_ID C) connected) = SbDone →
  wa_sessions (on_connection_update C E u w).1
  = <[TENANT_ID C := {| row_status := connected; updated_at := now w |}]>
      (wa_sessions w).
Proof.
  intros Ho HE Hu. unfold on_connection_update.
  rewrite Ho. simpl. js_simpl. unfold call, sb_call.
  destruct (truthy (qr u)) eqn:Hq; rewrite ?HE, Hu; simpl;
    rewrite ?Hq; destruct (truthy (latestQr w)); rewrite ?HE; reflexivity.
Qed.

(** X25: round trip of the session status.  After an [open] or [close]
    update (the calls completing) the status endpoint, asked for the tenant
    identifier, answers with the status the handler stored: [connected]
    for open, [logged_out] for a close with the logout code, [reconnecting]
    for any other close, stamped with the time of the update. *)
Theorem status_round_trip (E : env) (R : read_env) (u : ConnectionUpdate)
    (id : jsval) (w : world) :
  connection u = Some ConnOpen ∨ connection u = Some ConnClose →
  completes E → (∀ st, sb E (upsert_session (TENANT_ID C) st) = SbDone) →
  select_single R (TENANT_ID C) = SbDone →
  or_default id (TENANT_ID C) = TENANT_ID C →
  let w1 := (on_connection_update C E u w).1 in
  get_status C R id w1
  = (w1, inr {| get_code := 200;
                get_body_of := StatusBody (stored_status C u) (now w)
                                 (phone_of R (TENANT_ID C)) |}).
Proof.
  intros Hconn HE Hu HR Hid w1.
  assert (Hw : wa_sessions w1
               = <[TENANT_ID C := {| row_status := stored_status C u;
                                     updated_at := now w |}]> (wa_sessions w)).
  { subst w1. unfold stored_status. destruct Hconn as [Ho|Hc].
    - rewrite Ho. apply open_persists; auto.
    - rewrite Hc. unfold shouldReconnect.
      destruct (decide (statusCode u = Some (loggedOut C))) as [Hs|Hs].
      + rewrite (bool_decide_eq_true_2 _ Hs). simpl.
        apply (close_logout_fields C E u w Hc Hs HE (Hu _)).
      + rewrite (bool_decide_eq_false_2 _ Hs). simpl.
        apply (close_reconnect_fields C E u w Hc Hs HE (Hu _)). }
  unfold get_status, await_select, get_reply. js_simpl. rewrite Hid, HR, Hw.
  rewrite lookup_insert_eq. reflexivity.
Qed.

(** X26: the status endpoint on its failure paths.  It never lets an
    exception out.  A session without a row is answered [unknown]; a select
    that resolves with an error is answered [unknown] as well, and the
    error is printed unless its code is the no-rows one; a select that
    throws is answered 500 [Server error] and printed.  A missing
    identifier falls back to the tenant identifier. *)
Theorem get_status_failure_paths (R : read_env) (id : jsval) (w : world) :
  let key := or_default id (TENANT_ID C) in
  let r := get_status C R id w in
  (∃ resp, r.2 = inr resp)
  ∧ (select_single R key = SbDone → wa_sessions w !! key = None →
     r.2 = inr status_unknown)
  ∧ (∀ code, select_single R key = SbError code →
     r.2 = inr status_unknown
     ∧ console r.1
       = console w
         ++ (if bool_decide (code = "PGRST116") then []
             else [ConsoleError "Supabase select error" (Rejected code)]))
  ∧ (∀ e, select_single R key = SbThrows e →
     r.2 = inr server_error
     ∧ console r.1
       = console w ++ [ConsoleError "GET /session/:id/status" (Rejected e)])
  ∧ (truthy id = false → key = TENANT_ID C).
Proof.
  intros key r. subst r.
  unfold get_status, await_select, get_reply. js_simpl. fold key.
  split; [|split; [|split; [|split]]].
  - destruct (select_single R key) as [|code|e]; simpl.
    + destruct (wa_sessions w !! key) as [row|]; simpl; by eexists.
    + destruct (negb (bool_decide (code = "PGRST116"))); simpl; by eexists.
    + by eexists.
  - intros HR Hn. rewrite HR, Hn. reflexivity.
  - intros code HR. rewrite HR. simpl.
    case_bool_decide; simpl; [rewrite app_nil_r|]; split; reflexivity.
  - intros e HR. rewrite HR. simpl. split; reflexivity.
  - intros Hid. subst key. destruct id as [| |s]; simpl in *; try reflexivity.
    case_bool_decide; [reflexivity|discriminate].
Qed.

End StatusEndpoint.

(** ** The drafts *)

(** X27: how the drafts treat a close.  The first draft rebuilds the client
    at once on every close, the logout code included; the second rebuilds at
    once on every close but the logout one, on which it only prints.
    Neither arms a timeout nor stores a status, and a start call that
    throws escapes the handler. *)
Theorem draft_close_restarts (code : Z) (E : env) (u : ConnectionUpdate)
    (w : world) :
  connection u = Some ConnClose → truthy (qr u) = false →
  let r1 := draft1_on_connection_update E u w in
  let r2 := draft2_on_connection_update code E u w in
  (completes E →
     r1.2 = inr tt ∧ sockets r1.1 = S (sockets w)
     ∧ sock r1.1 = Some (sockets w))
  ∧ (completes E → statusCode u ≠ Some code →
     r2.2 = inr tt ∧ sockets r2.1 = S (sockets w)
     ∧ sock r2.1 = Some (sockets w))
  ∧ (statusCode u = Some code →
     r2 = (set_console (console w ++ [ConsoleLog "Connection closed. Logged out."]) w,
           inr tt))
  ∧ timers r1.1 = timers w ∧ wa_sessions r1.1 = wa_sessions w
  ∧ timers r2.1 = timers w ∧ wa_sessions r2.1 = wa_sessions w
  ∧ (∀ x, ext E (useMultiFileAuthState "auth_info_baileys") = Throws x →
     r1.2 = inl (Rejected x) ∧ sock r1.1 = sock w).
Proof.
  intros Hc Hq r1 r2. subst r1 r2.
  unfold draft1_on_connection_update, draft2_on_connection_update,
    draft_startBot.
  rewrite Hc, Hq. simpl. js_simpl. unfold call.
  split; [|split; [|split; [|split; [|split; [|split; [|split]]]]]].
  - intros HE. rewrite !HE. repeat split.
  - intros HE Hs. rewrite (bool_decide_eq_false_2 _ Hs), !HE. repeat split.
  - intros Hs. rewrite (bool_decide_eq_true_2 _ Hs). reflexivity.
  - destruct (ext E (useMultiFileAuthState _)); simpl; [|reflexivity].
    destruct (ext E fetchLatestBaileysVersion); simpl; [|reflexivity].
    destruct (ext E makeWASocket); reflexivity.
  - destruct (ext E (useMultiFileAuthState _)); simpl; [|reflexivity].
    destruct (ext E fetchLatestBaileysVersion); simpl; [|reflexivity].
    destruct (ext E makeWASocket); reflexivity.
  - destruct (bool_decide (statusCode u = Some code)); simpl; [reflexivity|].
    destruct (ext E (useMultiFileAuthState _)); simpl; [|reflexivity].
    destruct (ext E fetchLatestBaileysVersion); simpl; [|reflexivity].
    destruct (ext E makeWASocket); reflexivity.
  - destruct (bool_decide (statusCode u = Some code)); simpl; [reflexivity|].
    destruct (ext E (useMultiFileAuthState _)); simpl; [|reflexivity].
    destruct (ext E fetchLatestBaileysVersion); simpl; [|reflexivity].
    destruct (ext E makeWASocket); reflexivity.
  - intros x Hx. rewrite Hx. split; reflexivity.
Qed.

(** X28: the drafts' send endpoint checks nothing.  The credential header
    is not looked at, the recipient is used as given (not stripped, not
    checked, a missing one becomes the text [undefined]), no audit row is
    written, and a send that throws escapes the handler instead of being
    answered. *)
Theorem draft_send_unchecked (E : env) (req : send_request) (w : world)
    (h : nat) :
  sock w = Some h →
  let jid := to_String (body_to req) +:+ "@s.whatsapp.net" in
  let r := draft_post_send E req w in
  calls r.1 = calls w ++ [IExt (sock_sendMessage jid (body_message req))]
  ∧ wa_messages r.1 = wa_messages w
  ∧ (∀ key, draft_post_send E
              {| x_api_key := key; body_to := body_to req;
                 body_message := body_message req |} w = r)
  ∧ (ext E (sock_sendMessage jid (body_message req)) = Done → r.2 = inr sent)
  ∧ (∀ x, ext E (sock_sendMessage jid (body_message req)) = Throws x →
     r.2 = inl (Rejected x))
  ∧ (body_to req = JUndefined → jid = "undefined@s.whatsapp.net").
Proof.
  intros Hs jid r. subst r.
  unfold draft_post_send, reply. js_simpl. rewrite Hs. cbn [body_to body_message].
  fold jid. unfold call.
  split; [|split; [|split; [|split; [|split]]]].
  - destruct (ext E _); reflexivity.
  - destruct (ext E _); reflexivity.
  - intros key. reflexivity.
  - intros ->. reflexivity.
  - intros x ->. reflexivity.
  - intros Hu. subst jid. rewrite Hu. reflexivity.
Qed.

(** X29: the drafts push plain text bodies only.  A message from a peer
    whose text sits in the extended body or in an image caption produces
    nothing in the drafts, while the final server pushes it (the writes
    completing); a plain body is pushed by both, with the chat id as
    sender. *)
Theorem draft_plain_text_only (C : config) (E : env) (msg : WAMessage)
    (k : MessageKey) (rest : list WAMessage) (w : world) :
  key msg = Some k → fromMe k ≠ Some true →
  let batch := {| messages := Some (msg :: rest) |} in
  (truthy (plain_text msg) = false →
   draft_on_messages_upsert E batch w = (w, inr tt))
  ∧ (truthy (plain_text msg) = false → truthy (extended_text msg) = true →
     truthy (tenant_of C msg) = true → completes E →
     sb_returns (sb E (insert_message
                         (inbound_row (payload_of msg k (tenant_of C msg)))))
     = true →
     last (io_out (on_messages_upsert C E batch w).1)
     = Some (EvMsgReceived (remoteJid k) (extended_text msg)))
  ∧ (truthy (plain_text msg) = true → completes E →
     io_out (draft_on_messages_upsert E batch w).1
     = io_out w ++ [EvMsgReceived (remoteJid k) (plain_text msg)]).
Proof.
  intros Hk Hme batch. subst batch. split; [|split].
  - intros Hp. unfold draft_on_messages_upsert. cbn [messages head].
    rewrite Hk, Hp, (bool_decide_eq_false_2 _ Hme). reflexivity.
  - intros Hp Hx Ht HE Hi.
    rewrite (upsert_processed C E msg k rest w Hk Hme Ht).
    assert (Htxt : text_of msg = extended_text msg).
    { unfold text_of, js_or. rewrite Hp. cbv iota. rewrite Hx. cbv iota.
      by rewrite Hx. }
    rewrite Htxt. js_simpl. unfold call, sb_call. rewrite !HE.
    destruct (sb E _); [| |discriminate]; simpl; apply last_snoc.
  - intros Hp HE. unfold draft_on_messages_upsert. cbn [messages head].
    rewrite Hk, Hp, (bool_decide_eq_false_2 _ Hme). simpl.
    unfold call. rewrite HE. reflexivity.
Qed.

(** ** Instances of the further properties *)

Lemma restarts_not_coalesced_witness :
  sockets (elapse demo_config all_done 5000
             (on_connection_update demo_config all_done connection_lost
                (on_connection_update demo_config all_done connection_lost
                   booted).1).1).1 = 3%nat.
Proof.
  destruct (restarts_not_coalesced demo_config all_done 5000 booted
              all_done_completes) as (_ & _ & H).
  apply (H all_done all_done connection_lost connection_lost);
    first [reflexivity | discriminate | exact all_done_completes].
Defined.

Lemma failed_restart_not_retried_witness :
  sockets (elapse demo_config auth_down 5000 closing).1 = 1%nat
  ∧ timers (elapse demo_config auth_down 5000 closing).1 = [].
Proof.
  destruct (failed_restart_not_retried demo_config auth_down 5000 closing 5000
              (useMultiFileAuthState "auth_info_baileys") "auth dir unreadable")
    as (Ht & Hs & _);
    [reflexivity|discriminate|by apply list_elem_of_here|reflexivity|].
  split; [exact Hs|exact Ht].
Defined.

Lemma client_handle_never_cleared_witness :
  is_Some (sock (run demo_config
                   [(all_done, SockEvent 0 (ConnectionUpdateEv logged_out_close))]
                   booted)).
Proof.
  apply (client_handle_never_cleared demo_config
           [(all_done, SockEvent 0 (ConnectionUpdateEv logged_out_close))]
           booted).
  by eexists.
Defined.

Lemma pairing_code_never_forgotten_witness :
  (on_io_connection "obs-1"
     (run demo_config
        [(all_done, SockEvent 0 (ConnectionUpdateEv logged_out_close))]
        paired)).2
  = inr [EvQr (latestQr
                 (run demo_config
                    [(all_done, SockEvent 0 (ConnectionUpdateEv logged_out_close))]
                    paired))].
Proof.
  apply (pairing_code_never_forgotten demo_config
           [(all_done, SockEvent 0 (ConnectionUpdateEv logged_out_close))]
           paired "obs-1").
  reflexivity.
Defined.

Lemma qr_served_until_expiry_witness :
  (get_qr demo_config reads_done (JStr "dev_tenant")
     (elapse demo_config all_done 299999 paired).1).2
  = inr {| get_code := 200; get_body_of := QrBody (qr qr_event) |}
  ∧ (get_qr demo_config reads_done JUndefined
       (elapse demo_config all_done 300000 paired).1).2
    = inr {| get_code := 404;
             get_body_of := GetError "QR not found or expired" |}.
Proof.
  split.
  - destruct (qr_served_until_expiry demo_config all_done all_done reads_done
                qr_event (JStr "dev_tenant") 299999 booted)
      as (_ & _ & H); [reflexivity|discriminate|discriminate
                      |exact all_done_completes|reflexivity..|].
    unfold paired. rewrite H. reflexivity.
  - destruct (qr_served_until_expiry demo_config all_done all_done reads_done
                qr_event JUndefined 300000 booted)
      as (_ & _ & H); [reflexivity|discriminate|discriminate
                      |exact all_done_completes|reflexivity..|].
    unfold paired. rewrite H. reflexivity.
Defined.

Lemma open_pushes_then_persists_witness :
  io_out (on_connection_update demo_config all_done open_event paired).1
  = io_out paired ++ [EvConnected; EvQr (qr qr_event)].
Proof.
  destruct (open_pushes_then_persists demo_config all_done open_event paired)
    as (H & _); [reflexivity..|].
  destruct (H eq_refl eq_refl) as (_ & Hio). exact Hio.
Defined.

Lemma logout_clears_cache_not_memory_witness :
  (get_qr demo_config reads_done JUndefined
     (on_connection_update demo_config all_done logged_out_close paired).1).2
  = inr {| get_code := 404; get_body_of := GetError "QR not found or expired" |}
  ∧ (on_io_connection "obs-2"
       (on_connection_update demo_config all_done logged_out_close paired).1).2
    = inr [EvQr (qr qr_event)].
Proof.
  destruct (logout_clears_cache_not_memory demo_config all_done reads_done
              logged_out_close JUndefined "obs-2" paired)
    as (H1 & H2); [reflexivity|reflexivity|reflexivity|exact all_done_completes
                  |reflexivity..|].
  split; [rewrite H1; reflexivity|exact H2].
Defined.

Lemma send_rejects_invalid_body_witness :
  post_send_raw demo_config all_done long_raw_request booted
  = (booted, inr bad_body)
  ∧ (post_send_raw demo_config all_done bodyless_request booted).2
    = inr {| code := 500;
             body := BodyError
               "Cannot destructure property 'to' of 'req.body' as it is undefined." |}.
Proof.
  split.
  - destruct (send_rejects_invalid_body demo_config all_done long_raw_request
                booted "s3cret") as ((H & _) & _);
      [reflexivity|discriminate|reflexivity|].
    apply (H (JStr "+234 (801) 234-5678") (JStr (filler 1001)) eq_refl).
    right. right. exists (filler 1001). split; [reflexivity|].
    vm_compute. reflexivity.
  - destruct (send_rejects_invalid_body demo_config all_done bodyless_request
                booted "s3cret") as ((_ & H) & _);
      [reflexivity|discriminate|reflexivity|].
    rewrite (H eq_refl). reflexivity.
Defined.

Lemma send_rejects_bad_phone_witness :
  post_send demo_config all_done short_phone_request booted
  = (booted, inr bad_phone).
Proof.
  apply (send_rejects_bad_phone demo_config all_done short_phone_request booted
           "s3cret" "12-34" "Hello");
    [reflexivity|discriminate|reflexivity|reflexivity|discriminate|reflexivity
    |discriminate|vm_compute; discriminate|].
  vm_compute. intros [H _]. apply H. reflexivity.
Defined.

Lemma send_without_client_witness :
  post_send demo_config all_done good_request initial_world
  = (initial_world, inr no_client).
Proof.
  apply (send_without_client demo_config all_done good_request initial_world);
    reflexivity.
Defined.

Lemma send_failure_no_audit_witness :
  (post_send demo_config send_down good_request booted).2
  = inr {| code := 500; body := BodyError "Connection Closed" |}
  ∧ wa_messages (post_send demo_config send_down good_request booted).1 = [].
Proof.
  destruct (send_failure_no_audit demo_config send_down good_request booted
              0%nat "Connection Closed") as (H1 & H2 & _); [reflexivity..|].
  split; [exact H1|exact H2].
Defined.

Lemma upsert_keyless_message_witness :
  wa_inbound (on_messages_upsert demo_config all_done
                {| messages := Some [keyless_msg] |} booted).1 = [].
Proof.
  rewrite (upsert_keyless_message demo_config all_done keyless_msg [] booted);
    reflexivity.
Defined.

Lemma audit_rows_store_id_witness :
  (∃ row,
     last (wa_messages (on_messages_upsert two_ids_config all_done
                          {| messages := Some [quoted_msg] |} booted).1)
     = Some row ∧ store_id row = JStr "globex")
  ∧ (∃ row,
       last (wa_messages (on_messages_upsert two_ids_config all_done
                            {| messages := Some [hello_msg] |} booted).1)
       = Some row ∧ store_id row = JStr "wa-42")
  ∧ (∃ row,
       last (wa_messages (post_send two_ids_config all_done good_request booted).1)
       = Some row ∧ store_id row = JStr "store-7").
Proof.
  split; [|split].
  - destruct (audit_rows_store_id two_ids_config all_done quoted_msg tagged_key
                [] good_request 0%nat booted) as ((row & Hl & _ & Hs) & _);
      [reflexivity|discriminate|reflexivity|exact all_done_completes
      |exact all_store_writes_done|reflexivity|reflexivity|].
    exists row. split; [exact Hl|exact Hs].
  - destruct (audit_rows_store_id two_ids_config all_done hello_msg peer_key
                [] good_request 0%nat booted) as ((row & Hl & _ & Hs) & _);
      [reflexivity|discriminate|reflexivity|exact all_done_completes
      |exact all_store_writes_done|reflexivity|reflexivity|].
    exists row. split; [exact Hl|exact Hs].
  - destruct (audit_rows_store_id two_ids_config all_done hello_msg peer_key
                [] good_request 0%nat booted) as (_ & row & Hl & _ & Hs);
      [reflexivity|discriminate|reflexivity|exact all_done_completes
      |exact all_store_writes_done|reflexivity|reflexivity|].
    exists row. split; [exact Hl|exact Hs].
Defined.


Lemma status_round_trip_witness :
  (get_status demo_config reads_done (JStr "dev_tenant")
     (on_connection_update demo_config all_done connection_lost booted).1).2
  = inr {| get_code := 200; get_body_of := StatusBody reconnecting 0 JNull |}.
Proof.
  rewrite (status_round_trip demo_config all_done reads_done connection_lost
             (JStr "dev_tenant") booted);
    [reflexivity|by right|exact all_done_completes|reflexivity..].
Defined.

Lemma draft_close_restarts_witness :
  sockets (draft1_on_connection_update all_done logged_out_close booted).1
  = 2%nat
  ∧ sockets (draft2_on_connection_update 401 all_done logged_out_close booted).1
    = 1%nat.
Proof.
  destruct (draft_close_restarts 401 all_done logged_out_close booted)
    as (H1 & _ & H3 & _); [reflexivity..|].
  split.
  - apply (H1 all_done_completes).
  - rewrite (H3 eq_refl). reflexivity.
Defined.

Lemma draft_send_unchecked_witness :
  (draft_post_send all_done keyless_request booted).2 = inr sent
  ∧ wa_messages (draft_post_send all_done keyless_request booted).1 = [].
Proof.
  destruct (draft_send_unchecked all_done keyless_request booted 0%nat)
    as (_ & Hw & _ & Hs & _); [reflexivity|].
  split; [apply Hs; reflexivity|exact Hw].
Defined.

Lemma draft_plain_text_only_witness :
  draft_on_messages_upsert all_done {| messages := Some [reply_msg] |} booted
  = (booted, inr tt)
  ∧ last (io_out (on_messages_upsert demo_config all_done
                    {| messages := Some [reply_msg] |} booted).1)
    = Some (EvMsgReceived (JStr "2348012345678@s.whatsapp.net")
              (JStr "see you at 5")).
Proof.
  destruct (draft_plain_text_only demo_config all_done reply_msg peer_key []
              booted) as (H1 & H2 & _); [reflexivity|discriminate|].
  split; [apply H1; reflexivity|].
  apply H2; first [reflexivity | exact all_done_completes].
Defined.
